(** * scclib-sqlite: the request stream [Req] and the transaction helper [Trans]

    A shallow embedding of [src/sqld.cc] (declarations in
    [src/pub/sqlite/sqld.h]).  The sqlite3 library is an external collaborator:
    it appears here as the interface [Engine], whose operations carry the names
    of the C functions that the source calls.  The state behind a connection
    ([sqlite3*]) is threaded explicitly through every call. *)

From Stdlib Require Import ZArith String Ascii List Bool Lia.
Import ListNotations.
Local Open Scope Z_scope.

(** ** Result codes of sqlite3.h used by the source *)

Definition SQLITE_OK : Z := 0.
Definition SQLITE_ERROR : Z := 1.
Definition SQLITE_ROW : Z := 100.
Definition SQLITE_DONE : Z := 101.

(** ** Exceptions

    Every [throw] of the source raises a [std::runtime_error].  The
    constructor records which kind of [throw] statement raised it: one with a
    fixed message about a violated precondition ([UsageError]), or one that
    carries [sqlite3_errstr(r)] for a result code [r] of the engine
    ([EngineError]).

    [Undefined] is no [throw] of the source: it stands for a call of the C++
    library outside its precondition, whose behaviour is undefined (with
    libstdc++ a [std::logic_error] or a crash).  Nothing is known of the
    state after it; the model carries the state before the call along. *)

Inductive exn : Type :=
| UsageError (what : string)
| EngineError (what : string)
| Undefined (what : string).

Inductive res (A : Type) : Type :=
| Ret (a : A)
| Throw (e : exn).
Arguments Ret {A} a.
Arguments Throw {A} e.

(** ** The engine interface

    [db] is everything reachable from a [sqlite3*]: the database and the
    statements compiled on the connection.  [stmt] is a non-null
    [sqlite3_stmt*]; the member [m_stmt] is an [option stmt].

    [sqlite3_prepare_v2 w text nByte] receives the zero-terminated text at
    [head] and yields the new engine state, the result code, the value written
    to the statement pointer and the distance [tail - head].

    [sqlite3_column_text] yields a pointer to a zero-terminated text, or the
    null pointer ([None]) when the column holds SQL NULL. *)

Class Engine : Type := {
  db : Type;
  stmt : Type;
  double : Type;
  sqlite3_errstr : Z -> string;
  sqlite3_prepare_v2 : db -> string -> Z -> db * (Z * option stmt * Z);
  sqlite3_step : db -> stmt -> db * Z;
  sqlite3_finalize : db -> stmt -> db;
  sqlite3_column_count : db -> stmt -> Z;
  sqlite3_column_name : db -> stmt -> Z -> string;
  sqlite3_column_text : db -> stmt -> Z -> option string;
  sqlite3_column_int : db -> stmt -> Z -> Z;
  sqlite3_column_int64 : db -> stmt -> Z -> Z;
  sqlite3_column_double : db -> stmt -> Z -> double;
  sqlite3_column_bytes : db -> stmt -> Z -> Z;
  sqlite3_column_blob : db -> stmt -> Z -> list Byte.byte
}.

(** ** Machine integers *)

(** [std::string::size_type] arithmetic is modulo 2^64. *)
Definition size_t (z : Z) : Z := z mod 2 ^ 64.

(** Conversion of a [size_type] to the [int] parameter [nByte]. *)
Definition to_int (z : Z) : Z := (z + 2 ^ 31) mod 2 ^ 32 - 2 ^ 31.

(** The C string that starts at index [n] of [s]. *)
Fixpoint c_str_at (n : nat) (s : string) : string :=
  match n, s with
  | O, _ => s
  | S n', String _ s' => c_str_at n' s'
  | S _, EmptyString => EmptyString
  end.

Definition size (s : string) : Z := Z.of_nat (String.length s).

(** The constructor and the [assign] member of [std::string] that take a
    pointer to characters: the text at the pointer, which must not be null. *)
Definition std_string (p : option string) : res string :=
  match p with
  | Some t => Ret t
  | None => Throw (Undefined "std::string from a null pointer")
  end.

(** ** A small state-and-exception monad for the straight-line methods *)

Definition M (S A : Type) : Type := S -> res A * S.

Definition ret {S A} (a : A) : M S A := fun s => (Ret a, s).
Definition throw {S A} (e : exn) : M S A := fun s => (Throw e, s).
Definition bind {S A B} (m : M S A) (k : A -> M S B) : M S B :=
  fun s => match m s with
           | (Ret a, s') => k a s'
           | (Throw e, s') => (Throw e, s')
           end.
Definition get {S} : M S S := fun s => (Ret s, s).
Definition put {S} (s : S) : M S unit := fun _ => (Ret tt, s).

Declare Scope cpp_scope.
Delimit Scope cpp_scope with cpp.
Notation "x <- m ;; k" := (bind m (fun x => k))
  (at level 61, m at next level, right associativity) : cpp_scope.
Notation "m ;; k" := (bind m (fun _ => k))
  (at level 61, right associativity) : cpp_scope.

Section Model.

Context {E : Engine}.

(** ** class Req *)

Record Req : Type := mkReq {
  m_stmt : option stmt;
  m_sql : string;
  m_pos : Z;
  m_cols : Z
}.

(** State of a [Req] method: the object and the engine behind [m_conn]. *)
Definition St : Type := (Req * db)%type.

Definition set_stmt (h : option stmt) : M St unit :=
  fun '(r, w) => (Ret tt, (mkReq h (m_sql r) (m_pos r) (m_cols r), w)).
Definition set_sql (s : string) : M St unit :=
  fun '(r, w) => (Ret tt, (mkReq (m_stmt r) s (m_pos r) (m_cols r), w)).
Definition set_pos (p : Z) : M St unit :=
  fun '(r, w) => (Ret tt, (mkReq (m_stmt r) (m_sql r) p (m_cols r), w)).
Definition set_cols (c : Z) : M St unit :=
  fun '(r, w) => (Ret tt, (mkReq (m_stmt r) (m_sql r) (m_pos r) c, w)).

(** [Req::Req(Conn&)] *)
Definition Req_new : Req := mkReq None EmptyString 0 0.

(** [r.sql() << text] *)
Definition sql_append (text : string) : M St unit :=
  fun '(r, w) => (Ret tt, (mkReq (m_stmt r) (m_sql r ++ text) (m_pos r) (m_cols r), w)).

(** [Req::finalize] *)
Definition finalize : M St unit :=
  fun '(r, w) =>
    match m_stmt r with
    | Some h => (Ret tt, (mkReq None (m_sql r) (m_pos r) (m_cols r), sqlite3_finalize w h))
    | None => (Ret tt, (r, w))
    end.

(** [Req::~Req] *)
Definition Req_dtor : M St unit := finalize.

Local Open Scope cpp_scope.

(** [Req::clear] *)
Definition clear : M St unit :=
  finalize ;;
  set_sql EmptyString ;;
  set_pos 0 ;;
  set_cols 0.

(** [Req::reset] *)
Definition reset : M St unit :=
  finalize ;;
  set_pos 0 ;;
  set_cols 0.

(** [Req::prepare].  The statement pointer is passed by address, so [m_stmt]
    receives what the engine wrote before the result code is tested. *)
Definition prepare : M St unit :=
  finalize ;;
  s <- get ;;
  let r := fst s in
  if m_pos r >=? size (m_sql r) then ret tt
  else
    let '(w', (rc, h, consumed)) :=
      sqlite3_prepare_v2 (snd s) (c_str_at (Z.to_nat (m_pos r)) (m_sql r))
                         (to_int (size_t (size (m_sql r) + 1))) in
    put (mkReq h (m_sql r) (m_pos r) (m_cols r), w') ;;
    if negb (rc =? SQLITE_OK) then throw (EngineError (sqlite3_errstr rc))
    else set_pos (size_t (m_pos r + consumed)).

(** The [while (1)] loop of [Req::exec_select]; [None] when [fuel] iterations
    did not reach a [return] or a [throw]. *)
Fixpoint exec_select_loop (fuel : nat) (s : St) : option (res Z * St) :=
  match fuel with
  | O => None
  | S fuel' =>
    match prepare s with
    | (Throw e, s1) => Some (Throw e, s1)
    | (Ret _, s1) =>
      match m_stmt (fst s1) with
      | None => Some (Ret 0, s1)
      | Some h =>
        let '(w2, r) := sqlite3_step (snd s1) h in
        if r =? SQLITE_DONE then exec_select_loop fuel' (fst s1, w2)
        else if negb (r =? SQLITE_ROW)
        then Some (Throw (EngineError (sqlite3_errstr r)), (fst s1, w2))
        else
          let c := sqlite3_column_count w2 h in
          Some (Ret c, (mkReq (m_stmt (fst s1)) (m_sql (fst s1)) (m_pos (fst s1)) c, w2))
      end
    end
  end.

(** [Req::exec_select] *)
Definition exec_select (fuel : nat) (s : St) : option (res Z * St) :=
  if negb (m_cols (fst s) =? 0)
  then Some (Throw (UsageError "exec_select() called with current row data"), s)
  else exec_select_loop fuel s.

(** [Req::next_row] *)
Definition next_row : M St Z :=
  fun s =>
    match m_stmt (fst s) with
    | None => (Throw (UsageError "next_row() called with invalid statement"), s)
    | Some h =>
      if m_cols (fst s) =? 0
      then (Throw (UsageError "next_row() called without current row data"), s)
      else
        let '(w1, r) := sqlite3_step (snd s) h in
        if r =? SQLITE_DONE
        then (Ret 0, (mkReq (m_stmt (fst s)) (m_sql (fst s)) (m_pos (fst s)) 0, w1))
        else if negb (r =? SQLITE_ROW)
        then (Throw (EngineError (sqlite3_errstr r)), (fst s, w1))
        else (Ret (sqlite3_column_count w1 h), (fst s, w1))
    end.

(** The inner loop [while (next_row()) {}] of [Req::exec]. *)
Fixpoint drain_rows (fuel : nat) (s : St) : option (res unit * St) :=
  match fuel with
  | O => None
  | S fuel' =>
    match next_row s with
    | (Throw e, s1) => Some (Throw e, s1)
    | (Ret n, s1) => if n =? 0 then Some (Ret tt, s1) else drain_rows fuel' s1
    end
  end.

(** The outer [while (1)] loop of [Req::exec]. *)
Fixpoint exec_loop (fuel : nat) (s : St) : option (res unit * St) :=
  match fuel with
  | O => None
  | S fuel' =>
    match exec_select fuel' s with
    | None => None
    | Some (Throw e, s1) => Some (Throw e, s1)
    | Some (Ret r, s1) =>
      if r =? 0 then Some (Ret tt, s1)
      else
        match drain_rows fuel' s1 with
        | None => None
        | Some (Throw e, s2) => Some (Throw e, s2)
        | Some (Ret _, s2) => exec_loop fuel' s2
        end
    end
  end.

(** [Req::exec] *)
Definition exec (fuel : nat) (s : St) : option (res unit * St) :=
  if negb (m_cols (fst s) =? 0)
  then Some (Throw (UsageError "exec() called with current row data"), s)
  else exec_loop fuel s.

(** ** Column accessors of [Req]

    Each accessor of the source opens with the same three tests, written out
    in each function as the source does. *)

(** [std::string Req::col_name(int)] *)
Definition col_name (col : Z) : M St string :=
  fun s =>
    match m_stmt (fst s) with
    | None => (Throw (UsageError "column operation called with invalid statement"), s)
    | Some h =>
      if m_cols (fst s) =? 0
      then (Throw (UsageError "column operation called when row not available"), s)
      else if (col <? 0) || (col >=? m_cols (fst s))
      then (Throw (UsageError "column operation called with invalid column number"), s)
      else (Ret (sqlite3_column_name (snd s) h col), s)
    end.

(** [void Req::col_name(int, std::string&)]; the result is the value assigned to the out-parameter *)
Definition col_name_to (col : Z) : M St string :=
  fun s =>
    match m_stmt (fst s) with
    | None => (Throw (UsageError "column operation called with invalid statement"), s)
    | Some h =>
      if m_cols (fst s) =? 0
      then (Throw (UsageError "column operation called when row not available"), s)
      else if (col <? 0) || (col >=? m_cols (fst s))
      then (Throw (UsageError "column operation called with invalid column number"), s)
      else (Ret (sqlite3_column_name (snd s) h col), s)
    end.

(** [std::string Req::col_text(int)] *)
Definition col_text (col : Z) : M St string :=
  fun s =>
    match m_stmt (fst s) with
    | None => (Throw (UsageError "column operation called with invalid statement"), s)
    | Some h =>
      if m_cols (fst s) =? 0
      then (Throw (UsageError "column operation called when row not available"), s)
      else if (col <? 0) || (col >=? m_cols (fst s))
      then (Throw (UsageError "column operation called with invalid column number"), s)
      else (std_string (sqlite3_column_text (snd s) h col), s)
    end.

(** [void Req::col_text(int, std::string&)]; the result is the value assigned to the out-parameter *)
Definition col_text_to (col : Z) : M St string :=
  fun s =>
    match m_stmt (fst s) with
    | None => (Throw (UsageError "column operation called with invalid statement"), s)
    | Some h =>
      if m_cols (fst s) =? 0
      then (Throw (UsageError "column operation called when row not available"), s)
      else if (col <? 0) || (col >=? m_cols (fst s))
      then (Throw (UsageError "column operation called with invalid column number"), s)
      else (std_string (sqlite3_column_text (snd s) h col), s)
    end.

(** [int Req::col_int(int)] *)
Definition col_int (col : Z) : M St Z :=
  fun s =>
    match m_stmt (fst s) with
    | None => (Throw (UsageError "column operation called with invalid statement"), s)
    | Some h =>
      if m_cols (fst s) =? 0
      then (Throw (UsageError "column operation called when row not available"), s)
      else if (col <? 0) || (col >=? m_cols (fst s))
      then (Throw (UsageError "column operation called with invalid column number"), s)
      else (Ret (sqlite3_column_int (snd s) h col), s)
    end.

(** [int64_t Req::col_int64(int)] *)
Definition col_int64 (col : Z) : M St Z :=
  fun s =>
    match m_stmt (fst s) with
    | None => (Throw (UsageError "column operation called with invalid statement"), s)
    | Some h =>
      if m_cols (fst s) =? 0
      then (Throw (UsageError "column operation called when row not available"), s)
      else if (col <? 0) || (col >=? m_cols (fst s))
      then (Throw (UsageError "column operation called with invalid column number"), s)
      else (Ret (sqlite3_column_int64 (snd s) h col), s)
    end.

(** [double Req::col_real(int)] *)
Definition col_real (col : Z) : M St double :=
  fun s =>
    match m_stmt (fst s) with
    | None => (Throw (UsageError "column operation called with invalid statement"), s)
    | Some h =>
      if m_cols (fst s) =? 0
      then (Throw (UsageError "column operation called when row not available"), s)
      else if (col <? 0) || (col >=? m_cols (fst s))
      then (Throw (UsageError "column operation called with invalid column number"), s)
      else (Ret (sqlite3_column_double (snd s) h col), s)
    end.

(** [void Req::col_blob(int, std::vector<char>&)]; the result is the range [v, v+sz) assigned to the out-parameter *)
Definition col_blob (col : Z) : M St (list Byte.byte) :=
  fun s =>
    match m_stmt (fst s) with
    | None => (Throw (UsageError "column operation called with invalid statement"), s)
    | Some h =>
      if m_cols (fst s) =? 0
      then (Throw (UsageError "column operation called when row not available"), s)
      else if (col <? 0) || (col >=? m_cols (fst s))
      then (Throw (UsageError "column operation called with invalid column number"), s)
      else (Ret (let sz := sqlite3_column_bytes (snd s) h col in
            let v := sqlite3_column_blob (snd s) h col in
            firstn (Z.to_nat sz) v), s)
    end.

(** ** class Trans

    [m_conn] is a reference to the connection; the engine state behind it is
    the second component of [TSt]. *)

Record Trans : Type := mkTrans { m_active : bool }.

Definition TSt : Type := (Trans * db)%type.

(** [Trans::Trans(Conn&)] *)
Definition Trans_new : Trans := mkTrans false.

(** The block [Req r(m_conn); r.sql() << text; r.exec();] shared by the three
    methods.  The local [r] is destroyed when the block is left, by the normal
    path and by an exception alike. *)
Definition run_sql (fuel : nat) (text : string) (w : db) : option (res unit * db) :=
  let s0 := snd (sql_append text (Req_new, w)) in
  match exec fuel s0 with
  | None => None
  | Some (out, s1) => Some (out, snd (snd (Req_dtor s1)))
  end.

(** [Trans::begin] *)
Definition begin (fuel : nat) (s : TSt) : option (res unit * TSt) :=
  if m_active (fst s)
  then Some (Throw (UsageError "begin() transaction when already active"), s)
  else
    match run_sql fuel "BEGIN;" (snd s) with
    | None => None
    | Some (Throw e, w) => Some (Throw e, (fst s, w))
    | Some (Ret _, w) => Some (Ret tt, (mkTrans true, w))
    end.

(** [Trans::commit] *)
Definition commit (fuel : nat) (s : TSt) : option (res unit * TSt) :=
  if negb (m_active (fst s))
  then Some (Throw (UsageError "commit() transaction when not active"), s)
  else
    match run_sql fuel "COMMIT;" (snd s) with
    | None => None
    | Some (Throw e, w) => Some (Throw e, (fst s, w))
    | Some (Ret _, w) => Some (Ret tt, (mkTrans false, w))
    end.

(** [Trans::abort] *)
Definition abort (fuel : nat) (s : TSt) : option (res unit * TSt) :=
  if negb (m_active (fst s))
  then Some (Throw (UsageError "abort() transaction when not active"), s)
  else
    match run_sql fuel "ROLLBACK;" (snd s) with
    | None => None
    | Some (Throw e, w) => Some (Throw e, (fst s, w))
    | Some (Ret _, w) => Some (Ret tt, (mkTrans false, w))
    end.

(** The body of [Trans::~Trans].  It has no handler: a [Throw] outcome is an
    exception that leaves the body of the destructor. *)
Definition Trans_dtor (fuel : nat) (s : TSt) : option (res unit * TSt) :=
  if m_active (fst s) then abort fuel s else Some (Ret tt, s).

End Model.

Arguments Req {E}.
Arguments St {E}.
Arguments TSt {E}.

(** ** A small concrete engine

    An instance of [Engine] on which the model runs: statements end at [';'],
    a text of blanks compiles to no statement, a handful of statement texts is
    understood, and one flag records whether a transaction is open.  As in
    sqlite3, [BEGIN] inside a transaction and [COMMIT] or [ROLLBACK] outside
    one fail when they are stepped. *)

Module Toy.

Inductive kind : Type :=
| KBegin | KCommit | KRollback
| KCreate
| KSelect (cols : Z) (rows : nat)
| KNull.                          (* one row with one column that holds SQL NULL *)

(** A compiled statement: its identity and its program. *)
Definition handle : Type := (nat * kind)%type.

Record state : Type := mkState {
  in_txn : bool;
  next_id : nat;
  emitted : list (nat * nat)     (* rows already produced, per live statement *)
}.

Definition is_blank (c : ascii) : bool :=
  (Ascii.eqb c " " || Ascii.eqb c "009" || Ascii.eqb c "010")%bool.

Fixpoint skip_blanks (s : string) : string :=
  match s with
  | String c s' => if is_blank c then skip_blanks s' else s
  | EmptyString => EmptyString
  end.

(** The text up to the first [';'] and the number of characters consumed,
    the [';'] included. *)
Fixpoint take_stmt (s : string) : string * Z :=
  match s with
  | EmptyString => (EmptyString, 0)
  | String c s' =>
    if Ascii.eqb c ";" then (EmptyString, 1)
    else let '(body, n) := take_stmt s' in (String c body, n + 1)
  end.

Definition parse (body : string) : option kind :=
  if String.eqb body "BEGIN" then Some KBegin
  else if String.eqb body "COMMIT" then Some KCommit
  else if String.eqb body "ROLLBACK" then Some KRollback
  else if String.eqb body "CREATE TABLE t(a)" then Some KCreate
  else if String.eqb body "SELECT 1" then Some (KSelect 1 1)
  else if String.eqb body "SELECT 1,2" then Some (KSelect 2 1)
  else if String.eqb body "VALUES(1),(2)" then Some (KSelect 1 2)
  else if String.eqb body "SELECT NULL" then Some KNull
  else None.

Definition prepare_v2 (w : state) (text : string) (nByte : Z)
  : state * (Z * option handle * Z) :=
  let '(body, n) := take_stmt text in
  let body' := skip_blanks body in
  if String.eqb body' EmptyString then (w, (SQLITE_OK, None, n))
  else
    match parse body' with
    | None => (w, (SQLITE_ERROR, None, 0))
    | Some k =>
      (mkState (in_txn w) (S (next_id w)) ((next_id w, O) :: emitted w),
       (SQLITE_OK, Some (next_id w, k), n))
    end.

Fixpoint rows_of (id : nat) (l : list (nat * nat)) : nat :=
  match l with
  | [] => O
  | (i, n) :: l' => if Nat.eqb i id then n else rows_of id l'
  end.

Fixpoint bump (id : nat) (l : list (nat * nat)) : list (nat * nat) :=
  match l with
  | [] => []
  | (i, n) :: l' => if Nat.eqb i id then (i, S n) :: l' else (i, n) :: bump id l'
  end.

Definition step (w : state) (h : handle) : state * Z :=
  match snd h with
  | KBegin =>
    if in_txn w then (w, SQLITE_ERROR)
    else (mkState true (next_id w) (emitted w), SQLITE_DONE)
  | KCommit | KRollback =>
    if in_txn w then (mkState false (next_id w) (emitted w), SQLITE_DONE)
    else (w, SQLITE_ERROR)
  | KCreate => (w, SQLITE_DONE)
  | KSelect _ rows =>
    if Nat.ltb (rows_of (fst h) (emitted w)) rows
    then (mkState (in_txn w) (next_id w) (bump (fst h) (emitted w)), SQLITE_ROW)
    else (w, SQLITE_DONE)
  | KNull =>
    if Nat.ltb (rows_of (fst h) (emitted w)) 1
    then (mkState (in_txn w) (next_id w) (bump (fst h) (emitted w)), SQLITE_ROW)
    else (w, SQLITE_DONE)
  end.

Definition finalize_stmt (w : state) (h : handle) : state :=
  mkState (in_txn w) (next_id w)
          (filter (fun p => negb (Nat.eqb (fst p) (fst h))) (emitted w)).

Definition column_count (w : state) (h : handle) : Z :=
  match snd h with
  | KSelect cols _ => cols
  | KNull => 1
  | _ => 0
  end.

(** The value in column [i] of the row produced last: row [n] of the
    statements above holds [n] in its first column and [n + 1] in its second;
    SQL NULL reads as the integer 0. *)
Definition column_int (w : state) (h : handle) (i : Z) : Z :=
  match snd h with
  | KNull => 0
  | _ => Z.of_nat (rows_of (fst h) (emitted w)) + i
  end.

Definition column_text (w : state) (h : handle) (i : Z) : string :=
  if column_int w h i =? 1 then "1" else if column_int w h i =? 2 then "2" else "3".

Definition column_name (w : state) (h : handle) (i : Z) : string :=
  if i =? 0 then "1" else "2".

(** The text pointer of column [i]: null when the column holds SQL NULL. *)
Definition text_ptr (w : state) (h : handle) (i : Z) : option string :=
  match snd h with
  | KNull => None
  | _ => Some (column_text w h i)
  end.

Definition column_bytes (w : state) (h : handle) (i : Z) : Z :=
  match text_ptr w h i with
  | Some t => Z.of_nat (String.length t)
  | None => 0
  end.

Definition column_blob (w : state) (h : handle) (i : Z) : list Byte.byte :=
  match text_ptr w h i with
  | Some t => list_byte_of_string t
  | None => []
  end.

Definition errstr (rc : Z) : string :=
  if rc =? SQLITE_OK then "not an error"
  else if rc =? SQLITE_ERROR then "SQL logic error"
  else "unknown error".

Definition engine : Engine := {|
  db := state;
  stmt := handle;
  double := Z;
  sqlite3_errstr := errstr;
  sqlite3_prepare_v2 := prepare_v2;
  sqlite3_step := step;
  sqlite3_finalize := finalize_stmt;
  sqlite3_column_count := column_count;
  sqlite3_column_name := column_name;
  sqlite3_column_text := text_ptr;
  sqlite3_column_int := column_int;
  sqlite3_column_int64 := column_int;
  sqlite3_column_double := column_int;
  sqlite3_column_bytes := column_bytes;
  sqlite3_column_blob := column_blob
|}.

(** A freshly opened connection. *)
Definition db0 : @db engine := mkState false O [].

(** A request on which [text] was streamed. *)
Definition req_of (text : string) : @Req engine := mkReq None text 0 0.

(** The stream of the script [SELECT 1; ] when [exec_select] has returned its
    row, and after [next_row] has then reported the end of the rows. *)
Definition row_state : @St engine :=
  (@mkReq engine (Some (O, KSelect 1 1)) "SELECT 1; " 9 1, mkState false 1 [(O, 1%nat)]).

Definition done_state : @St engine :=
  (@mkReq engine (Some (O, KSelect 1 1)) "SELECT 1; " 9 0, mkState false 1 [(O, 1%nat)]).

(** The stream of the script [SELECT NULL;] when [exec_select] has returned
    its row. *)
Definition null_state : @St engine :=
  (@mkReq engine (Some (O, KNull)) "SELECT NULL;" 12 1, mkState false 1 [(O, 1%nat)]).

(** The connection inside a transaction. *)
Definition db_txn : @db engine := mkState true 1 [].

End Toy.


(** ** Vocabulary of the specification *)

Section Vocabulary.

Context {E : Engine}.

(** The engine after the compiled handle of [r], if any, was released. *)
Definition released (r : Req) (w : db) : db :=
  match m_stmt r with
  | Some h => sqlite3_finalize w h
  | None => w
  end.

(** The states of the stream named by the specification. *)
Definition Idle (r : Req) : Prop := m_stmt r = None /\ m_cols r = 0.
Definition RowReady (r : Req) : Prop := m_stmt r <> None /\ 0 < m_cols r.

(** A column count other than 0 comes with a compiled handle. *)
Definition count_has_handle (r : Req) : Prop := m_cols r <> 0 -> m_stmt r <> None.

(** The run of [exec_select] in the words of the specification: compile the
    next statement; none remains: the result is 0; the statement produced no
    row: go on with the next one; a row is available: the column count is
    stored and returned. *)
Inductive select_run : St -> Z -> St -> Prop :=
| run_none s s1 :
    prepare s = (Ret tt, s1) -> m_stmt (fst s1) = None ->
    select_run s 0 s1
| run_skip s s1 h w2 n s' :
    prepare s = (Ret tt, s1) -> m_stmt (fst s1) = Some h ->
    sqlite3_step (snd s1) h = (w2, SQLITE_DONE) ->
    select_run (fst s1, w2) n s' ->
    select_run s n s'
| run_row s s1 h w2 :
    prepare s = (Ret tt, s1) -> m_stmt (fst s1) = Some h ->
    sqlite3_step (snd s1) h = (w2, SQLITE_ROW) ->
    select_run s (sqlite3_column_count w2 h)
      (mkReq (Some h) (m_sql (fst s1)) (m_pos (fst s1)) (sqlite3_column_count w2 h), w2).

(** The contract of a column accessor [acc] that reads [value] from the
    engine: it throws a usage error exactly when the handle is missing, no row
    is current or the index is out of range, and yields the engine's value
    otherwise; the state is the same afterwards. *)
Definition accessor_spec {A : Type} (acc : Z -> M St A) (value : db -> stmt -> Z -> A) : Prop :=
  forall (col : Z) (r : Req) (w : db),
    ((exists what, acc col (r, w) = (Throw (UsageError what), (r, w))) <->
     (m_stmt r = None \/ m_cols r = 0 \/ ~ (0 <= col < m_cols r)))
    /\
    (forall h, m_stmt r = Some h -> m_cols r <> 0 -> 0 <= col < m_cols r ->
               acc col (r, w) = (Ret (value w h col), (r, w))).

(** The contract of the two text accessors: the same guards, and behind them
    the conversion of the engine's text pointer to a [std::string]. *)
Definition text_accessor_spec (acc : Z -> M St string) : Prop :=
  forall (col : Z) (r : Req) (w : db),
    ((exists what, acc col (r, w) = (Throw (UsageError what), (r, w))) <->
     (m_stmt r = None \/ m_cols r = 0 \/ ~ (0 <= col < m_cols r)))
    /\
    (forall h, m_stmt r = Some h -> m_cols r <> 0 -> 0 <= col < m_cols r ->
               acc col (r, w) = (std_string (sqlite3_column_text w h col), (r, w))).

(** The value that [col_blob] assigns: [sqlite3_column_bytes] bytes from the
    address given by [sqlite3_column_blob]. *)
Definition blob_value (w : db) (h : stmt) (col : Z) : list Byte.byte :=
  firstn (Z.to_nat (sqlite3_column_bytes w h col)) (sqlite3_column_blob w h col).

(** States of a [Req] that its public operations can produce, starting from
    the constructor.  Every call may find the engine in any state (other
    requests work on the same connection), and a call that throws leaves a
    state that later calls go on from. *)
Inductive reachable : Req -> Prop :=
| reach_new : reachable Req_new
| reach_sql r w text s' :
    reachable r -> snd (sql_append text (r, w)) = s' -> reachable (fst s')
| reach_clear r w s' :
    reachable r -> snd (clear (r, w)) = s' -> reachable (fst s')
| reach_reset r w s' :
    reachable r -> snd (reset (r, w)) = s' -> reachable (fst s')
| reach_exec_select r w fuel out s' :
    reachable r -> exec_select fuel (r, w) = Some (out, s') -> reachable (fst s')
| reach_next_row r w s' :
    reachable r -> snd (next_row (r, w)) = s' -> reachable (fst s')
| reach_exec r w fuel out s' :
    reachable r -> exec fuel (r, w) = Some (out, s') -> reachable (fst s').

(** The calls of a [Trans] and their record: newest first, with [true] for a
    call that returned and [false] for one that threw. *)
Inductive tcall : Type := CBegin | CCommit | CAbort.

Definition call (c : tcall) (fuel : nat) (s : TSt) : option (res unit * TSt) :=
  match c with
  | CBegin => begin fuel s
  | CCommit => commit fuel s
  | CAbort => abort fuel s
  end.

Definition returned {A : Type} (out : res A) : bool :=
  match out with Ret _ => true | Throw _ => false end.

Inductive history : Trans -> list (tcall * bool) -> Prop :=
| hist_new : history Trans_new []
| hist_call c fuel t w out s' log :
    history t log -> call c fuel (t, w) = Some (out, s') ->
    history (fst s') ((c, returned out) :: log).

(** Whether the newest call that returned is a [begin]. *)
Fixpoint open_txn (log : list (tcall * bool)) : bool :=
  match log with
  | [] => false
  | (c, true) :: _ => match c with CBegin => true | _ => false end
  | (_, false) :: log' => open_txn log'
  end.

(** An engine makes progress when every statement it compiles ends after its
    first character and within the text it was given or at the byte after it. *)
Definition progresses : Prop :=
  forall w text nByte w' h consumed,
    sqlite3_prepare_v2 w text nByte = (w', (SQLITE_OK, Some h, consumed)) ->
    0 < consumed <= size text + 1.

End Vocabulary.

(** ** class Conn

    The source opens and closes connections through [sqlite3_open] and
    [sqlite3_close].  [sys] is the state of the library as a whole and
    [sqlite3] a non-null connection pointer; the member [m_db] is an
    [option sqlite3].  [sqlite3_open] yields the result code and the value it
    wrote to the connection pointer. *)

Class Opener : Type := {
  sys : Type;
  sqlite3 : Type;
  sqlite3_open : sys -> string -> sys * (Z * option sqlite3);
  sqlite3_close : sys -> sqlite3 -> sys
}.

Section ConnModel.

Context {E : Engine} {O : Opener}.

Record Conn : Type := mkConn { m_db : option sqlite3 }.

Definition CSt : Type := (Conn * sys)%type.

(** The default argument of the constructor and of [reopen]. *)
Definition default_uri : string := "file:mem?mode=memory&cache=shared".

(** [Conn::Conn(const std::string&)].  When the constructor throws there is no
    object, and so no destructor call later on. *)
Definition Conn_new (uri : string) (w : sys) : res Conn * sys :=
  let '(w', (r, h)) := sqlite3_open w uri in
  if negb (r =? SQLITE_OK) then (Throw (EngineError (sqlite3_errstr r)), w')
  else (Ret (mkConn h), w').

(** [Conn::close] *)
Definition close : M CSt unit :=
  fun '(c, w) =>
    match m_db c with
    | Some h => (Ret tt, (mkConn None, sqlite3_close w h))
    | None => (Ret tt, (c, w))
    end.

(** [Conn::~Conn] *)
Definition Conn_dtor : M CSt unit := close.

(** [Conn::reopen] *)
Definition reopen (uri : string) : M CSt unit :=
  (close ;;
   s <- get ;;
   let '(w', (r, h)) := sqlite3_open (snd s) uri in
   put (mkConn h, w') ;;
   if negb (r =? SQLITE_OK) then throw (EngineError (sqlite3_errstr r))
   else ret tt)%cpp.

End ConnModel.

Arguments Conn {O}.
Arguments CSt {O}.

(** ** Recording the resources an engine hands out

    To speak about what the source asks of the engine over a whole run, an
    engine is wrapped so that its state carries a record of the handles it
    produced and of the handles it was asked to release, oldest first.  The
    wrapped engine answers every call as the engine inside does. *)

Inductive event (H : Type) : Type :=
| Acquired (h : H)
| Released (h : H).
Arguments Acquired {H} h.
Arguments Released {H} h.

(** A record in which every handle is released once, right after it was
    acquired and before the next one is acquired; the first argument is the
    handle still held at the end. *)
Inductive balanced {H : Type} : option H -> list (event H) -> Prop :=
| bal_nil : balanced None []
| bal_acquire l h : balanced None l -> balanced (Some h) (l ++ [Acquired h])
| bal_release l h : balanced (Some h) l -> balanced None (l ++ [Released h]).

Definition recording (E : Engine) : Engine := {|
  db := (@db E * list (event (@stmt E)))%type;
  stmt := @stmt E;
  double := @double E;
  sqlite3_errstr := @sqlite3_errstr E;
  sqlite3_prepare_v2 := fun w text nByte =>
    let '(w', (rc, h, consumed)) := @sqlite3_prepare_v2 E (fst w) text nByte in
    ((w', match h with
          | Some h' => snd w ++ [Acquired h']
          | None => snd w
          end), (rc, h, consumed));
  sqlite3_step := fun w h =>
    let '(w', rc) := @sqlite3_step E (fst w) h in ((w', snd w), rc);
  sqlite3_finalize := fun w h => (@sqlite3_finalize E (fst w) h, snd w ++ [Released h]);
  sqlite3_column_count := fun w => @sqlite3_column_count E (fst w);
  sqlite3_column_name := fun w => @sqlite3_column_name E (fst w);
  sqlite3_column_text := fun w => @sqlite3_column_text E (fst w);
  sqlite3_column_int := fun w => @sqlite3_column_int E (fst w);
  sqlite3_column_int64 := fun w => @sqlite3_column_int64 E (fst w);
  sqlite3_column_double := fun w => @sqlite3_column_double E (fst w);
  sqlite3_column_bytes := fun w => @sqlite3_column_bytes E (fst w);
  sqlite3_column_blob := fun w => @sqlite3_column_blob E (fst w)
|}.

Definition recording_opener (O : Opener) : Opener := {|
  sys := (@sys O * list (event (@sqlite3 O)))%type;
  sqlite3 := @sqlite3 O;
  sqlite3_open := fun w uri =>
    let '(w', (rc, h)) := @sqlite3_open O (fst w) uri in
    ((w', match h with
          | Some h' => snd w ++ [Acquired h']
          | None => snd w
          end), (rc, h));
  sqlite3_close := fun w h => (@sqlite3_close O (fst w) h, snd w ++ [Released h])
|}.

Section Lifetimes.

Context {E : Engine} {O : Opener}.

(** A state of the recording engine without its record. *)
Definition forget_req (r : @Req (recording E)) : @Req E :=
  @mkReq E (m_stmt r) (m_sql r) (m_pos r) (m_cols r).

Definition forget (s : @St (recording E)) : @St E := (forget_req (fst s), fst (snd s)).

Definition forget_out {A : Type} (o : option (res A * @St (recording E)))
  : option (res A * @St E) :=
  match o with
  | Some (out, s) => Some (out, forget s)
  | None => None
  end.

(** The life of one request on a recording engine, from its constructor on:
    the engine state is handed from each call to the next. *)
Inductive req_life : @St (recording E) -> Prop :=
| life_new w : req_life (Req_new, (w, []))
| life_sql s text : req_life s -> req_life (snd (sql_append text s))
| life_clear s : req_life s -> req_life (snd (clear s))
| life_reset s : req_life s -> req_life (snd (reset s))
| life_exec_select s fuel out s' :
    req_life s -> exec_select fuel s = Some (out, s') -> req_life s'
| life_next_row s : req_life s -> req_life (snd (next_row s))
| life_exec s fuel out s' :
    req_life s -> exec fuel s = Some (out, s') -> req_life s'.

(** The life of one connection object on a recording library, from a
    constructor that returned: any number of [reopen] calls, returning or
    throwing. *)
Inductive conn_life : @CSt (recording_opener O) -> Prop :=
| conn_new uri w c w' :
    Conn_new (O := recording_opener O) uri (w, []) = (Ret c, w') -> conn_life (c, w')
| conn_reopen s uri : conn_life s -> conn_life (snd (reopen uri s)).

End Lifetimes.

(** ** Assumptions on engines *)

Section EngineAssumptions.

Context {E : Engine}.

(** A row that the engine reports has at least one column. *)
Definition rows_have_columns : Prop :=
  forall w h w', sqlite3_step w h = (w', SQLITE_ROW) -> sqlite3_column_count w' h <> 0.

(** The tail that a successful compilation reports lies within the text it
    was given or at the byte after it. *)
Definition tail_in_text : Prop :=
  forall w text nByte w' h consumed,
    sqlite3_prepare_v2 w text nByte = (w', (SQLITE_OK, h, consumed)) ->
    0 <= consumed <= size text + 1.

(** The offset lies within the buffer or at most one byte after it. *)
Definition offset_in_buffer (r : Req) : Prop := 0 <= m_pos r <= size (m_sql r) + 1.

(** In a record of calls, newest first, the calls that returned alternate:
    a [begin] is followed by a [commit] or an [abort], and the first of all is
    a [begin].  The flag tells whether a returned [begin] is the newest. *)
Fixpoint alternates (log : list (tcall * bool)) : bool :=
  match log with
  | [] => true
  | (_, false) :: log' => alternates log'
  | (CBegin, true) :: log' => negb (open_txn log') && alternates log'
  | (_, true) :: log' => open_txn log' && alternates log'
  end.

End EngineAssumptions.

(** ** An engine whose rows end in an error

    As the concrete engine above, but a row statement that has produced its
    rows reports an error instead of completion, as an interrupted or busy
    engine does; and a row has at least one column, whatever the handle. *)

Module Flaky.

Definition column_count (w : Toy.state) (h : Toy.handle) : Z :=
  match snd h with
  | Toy.KSelect cols _ => Z.max 1 cols
  | Toy.KNull => 1
  | _ => 0
  end.

Definition step (w : Toy.state) (h : Toy.handle) : Toy.state * Z :=
  match snd h with
  | Toy.KSelect _ rows =>
    if Nat.ltb (Toy.rows_of (fst h) (Toy.emitted w)) rows
    then Toy.step w h
    else (w, SQLITE_ERROR)
  | _ => Toy.step w h
  end.

Definition engine : Engine := {|
  db := Toy.state;
  stmt := Toy.handle;
  double := Z;
  sqlite3_errstr := Toy.errstr;
  sqlite3_prepare_v2 := Toy.prepare_v2;
  sqlite3_step := step;
  sqlite3_finalize := Toy.finalize_stmt;
  sqlite3_column_count := column_count;
  sqlite3_column_name := Toy.column_name;
  sqlite3_column_text := Toy.text_ptr;
  sqlite3_column_int := Toy.column_int;
  sqlite3_column_int64 := Toy.column_int;
  sqlite3_column_double := Toy.column_int;
  sqlite3_column_bytes := Toy.column_bytes;
  sqlite3_column_blob := Toy.column_blob
|}.

Definition db0 : @db engine := Toy.mkState false O [].

Definition req_of (text : string) : @Req engine := mkReq None text 0 0.

(** The stream of the script [SELECT 1;] when [exec_select] has returned its
    row. *)
Definition row_state : @St engine :=
  (@mkReq engine (Some (O, Toy.KSelect 1 1)) "SELECT 1;" 9 1,
   Toy.mkState false 1 [(O, 1%nat)]).

End Flaky.

(** ** A concrete library for connections

    Connections are numbered as they are opened; a URI that does not start
    with [file:] cannot be opened, and the library then writes no handle. *)

Module ToyOpen.

Definition open (n : nat) (uri : string) : nat * (Z * option nat) :=
  if String.prefix "file:" uri then (S n, (SQLITE_OK, Some n))
  else (n, (14, None)).

Definition opener : Opener := {|
  sys := nat;
  sqlite3 := nat;
  sqlite3_open := open;
  sqlite3_close := fun n _ => n
|}.

End ToyOpen.


(** * Properties *)

Section Properties.

Context {E : Engine}.

Local Open Scope cpp_scope.

(** ** Basic facts about the primitives *)

Lemma finalize_eq (r : Req) (w : db) :
  finalize (r, w) = (Ret tt, (mkReq None (m_sql r) (m_pos r) (m_cols r), released r w)).
Proof.
  unfold finalize, released. destruct r as [[h|] q p c]; reflexivity.
Qed.

Lemma size_t_small (z : Z) : 0 <= z < 2 ^ 64 -> size_t z = z.
Proof. intros H. unfold size_t. apply Z.mod_small. exact H. Qed.

(** What [prepare] does, case by case. *)
Lemma prepare_exhausted (r : Req) (w : db) :
  size (m_sql r) <= m_pos r ->
  prepare (r, w) = (Ret tt, (mkReq None (m_sql r) (m_pos r) (m_cols r), released r w)).
Proof.
  intros H. unfold prepare, bind. rewrite finalize_eq. cbn.
  destruct (Z.geb_spec (m_pos r) (size (m_sql r))); [reflexivity | lia].
Qed.

Lemma prepare_compiles (r : Req) (w w' : db) (rc consumed : Z) (h : option stmt) :
  m_pos r < size (m_sql r) ->
  sqlite3_prepare_v2 (released r w) (c_str_at (Z.to_nat (m_pos r)) (m_sql r))
                     (to_int (size_t (size (m_sql r) + 1))) = (w', (rc, h, consumed)) ->
  prepare (r, w) =
    if rc =? SQLITE_OK
    then (Ret tt, (mkReq h (m_sql r) (size_t (m_pos r + consumed)) (m_cols r), w'))
    else (Throw (EngineError (sqlite3_errstr rc)), (mkReq h (m_sql r) (m_pos r) (m_cols r), w')).
Proof.
  intros Hlt Hc. unfold prepare, bind. rewrite finalize_eq. cbn.
  destruct (Z.geb_spec (m_pos r) (size (m_sql r))); [lia |].
  rewrite Hc. cbn. destruct (rc =? SQLITE_OK); reflexivity.
Qed.

(** [prepare] changes neither the buffer nor the column count. *)
Lemma prepare_frame (s : St) :
  m_sql (fst (snd (prepare s))) = m_sql (fst s) /\
  m_cols (fst (snd (prepare s))) = m_cols (fst s).
Proof.
  destruct s as [r w].
  destruct (Z.lt_ge_cases (m_pos r) (size (m_sql r))) as [Hlt | Hge].
  - destruct (sqlite3_prepare_v2 (released r w) (c_str_at (Z.to_nat (m_pos r)) (m_sql r))
                (to_int (size_t (size (m_sql r) + 1)))) as [w' [[rc h] consumed]] eqn:Hc.
    rewrite (prepare_compiles r w w' rc consumed h Hlt Hc).
    destruct (rc =? SQLITE_OK); split; reflexivity.
  - rewrite (prepare_exhausted r w Hge). split; reflexivity.
Qed.

(** ** clear and reset *)

Lemma clear_eq (r : Req) (w : db) :
  clear (r, w) = (Ret tt, (mkReq None EmptyString 0 0, released r w)).
Proof. unfold clear, bind. rewrite finalize_eq. reflexivity. Qed.

Lemma reset_eq (r : Req) (w : db) :
  reset (r, w) = (Ret tt, (mkReq None (m_sql r) 0 0, released r w)).
Proof. unfold reset, bind. rewrite finalize_eq. reflexivity. Qed.

(** C8: from every state, [clear] empties the buffer, puts the offset and the
    column count to 0 and releases the compiled handle, if any; [reset] does
    the same but leaves the buffer as it is. *)
Theorem clear_reset_effect (r : Req) (w : db) :
  clear (r, w) = (Ret tt, (mkReq None EmptyString 0 0, released r w)) /\
  reset (r, w) = (Ret tt, (mkReq None (m_sql r) 0 0, released r w)).
Proof.
  split; [apply clear_eq | apply reset_eq].
Qed.

(** ** The guards of exec_select and exec *)

(** C6: with a column count greater than 0, [exec_select] throws a usage error
    and leaves buffer, offset, handle, column count and the engine as they
    were, whatever the fuel. *)
Theorem exec_select_row_pending (fuel : nat) (r : Req) (w : db) :
  0 < m_cols r ->
  exec_select fuel (r, w) =
    Some (Throw (UsageError "exec_select() called with current row data"), (r, w)).
Proof.
  intros H. unfold exec_select. cbn.
  destruct (Z.eqb_spec (m_cols r) 0); [lia | reflexivity].
Qed.

(** C10: with a column count greater than 0, [exec] throws a usage error
    before any statement is compiled or stepped: the request and the engine
    are as they were, whatever the fuel. *)
Theorem exec_row_pending (fuel : nat) (r : Req) (w : db) :
  0 < m_cols r ->
  exec fuel (r, w) =
    Some (Throw (UsageError "exec() called with current row data"), (r, w)).
Proof.
  intros H. unfold exec. cbn.
  destruct (Z.eqb_spec (m_cols r) 0); [lia | reflexivity].
Qed.

(** ** Column accessors *)

Ltac accessor_cases r col :=
  let h := fresh "h" in
  let Hc := fresh "Hc" in
  destruct (m_stmt r) as [h|] eqn:?; cbn;
  [ destruct (Z.eqb_spec (m_cols r) 0) as [Hc|Hc];
    [ | destruct (Z.ltb_spec col 0); destruct (Z.geb_spec col (m_cols r)); cbn ]
  | ].

Lemma accessor_guard {A : Type} (value : db -> stmt -> Z -> A) :
  accessor_spec
    (fun col s =>
       match m_stmt (fst s) with
       | None => (Throw (UsageError "column operation called with invalid statement"), s)
       | Some h =>
         if m_cols (fst s) =? 0
         then (Throw (UsageError "column operation called when row not available"), s)
         else if (col <? 0) || (col >=? m_cols (fst s))
         then (Throw (UsageError "column operation called with invalid column number"), s)
         else (Ret (value (snd s) h col), s)
       end)
    value.
Proof.
  intros col r w. cbn. split.
  - accessor_cases r col; split; intros Hx;
      try (eexists; reflexivity);
      try (right; left; assumption);
      try (right; right; lia);
      try (left; reflexivity);
      try (destruct Hx as [what Hx]; discriminate Hx);
      try (destruct Hx as [Hx | [Hx | Hx]]; [discriminate Hx | contradiction | lia]).
  - intros h Hs Hc Hr. rewrite Hs.
    destruct (Z.eqb_spec (m_cols r) 0); [contradiction |].
    destruct (Z.ltb_spec col 0); [lia |].
    destruct (Z.geb_spec col (m_cols r)); [lia |]. reflexivity.
Qed.

Lemma text_accessor_guard :
  text_accessor_spec
    (fun col s =>
       match m_stmt (fst s) with
       | None => (Throw (UsageError "column operation called with invalid statement"), s)
       | Some h =>
         if m_cols (fst s) =? 0
         then (Throw (UsageError "column operation called when row not available"), s)
         else if (col <? 0) || (col >=? m_cols (fst s))
         then (Throw (UsageError "column operation called with invalid column number"), s)
         else (std_string (sqlite3_column_text (snd s) h col), s)
       end).
Proof.
  intros col r w. cbn. split.
  - accessor_cases r col; split; intros Hx;
      try (eexists; reflexivity);
      try (right; left; assumption);
      try (right; right; lia);
      try (left; reflexivity);
      try (destruct Hx as [what Hx]; discriminate Hx);
      try (destruct Hx as [what Hx];
           destruct (sqlite3_column_text w h col); discriminate Hx);
      try (destruct Hx as [Hx | [Hx | Hx]]; [discriminate Hx | contradiction | lia]).
  - intros h Hs Hc Hr. rewrite Hs.
    destruct (Z.eqb_spec (m_cols r) 0); [contradiction |].
    destruct (Z.ltb_spec col 0); [lia |].
    destruct (Z.geb_spec col (m_cols r)); [lia |]. reflexivity.
Qed.

(** Every column accessor throws a usage error if and only if there is no
    compiled handle, or the column count is 0, or the index is outside
    [0, column count), and then the state is untouched.  Behind the guards
    [col_name], [col_int], [col_int64], [col_real] and [col_blob] return the
    value that the engine reports for that index; the two text accessors hand
    the engine's text pointer to [std::string], which yields the text when
    the pointer is not null. *)
Theorem col_accessor_guards :
  accessor_spec col_name sqlite3_column_name /\
  accessor_spec col_name_to sqlite3_column_name /\
  text_accessor_spec col_text /\
  text_accessor_spec col_text_to /\
  accessor_spec col_int sqlite3_column_int /\
  accessor_spec col_int64 sqlite3_column_int64 /\
  accessor_spec col_real sqlite3_column_double /\
  accessor_spec col_blob blob_value.
Proof.
  repeat apply conj.
  - exact (accessor_guard sqlite3_column_name).
  - exact (accessor_guard sqlite3_column_name).
  - exact text_accessor_guard.
  - exact text_accessor_guard.
  - exact (accessor_guard sqlite3_column_int).
  - exact (accessor_guard sqlite3_column_int64).
  - exact (accessor_guard sqlite3_column_double).
  - exact (accessor_guard blob_value).
Qed.

(** ** next_row at the end of the rows *)

(** C2 (amended): on a stream with a compiled handle and a column count
    greater than 0, when the engine reports completion [next_row] returns 0
    and sets the column count to 0; buffer, offset and the compiled handle
    stay as they were, so the stream still holds its handle and is not in the
    state without a handle. *)
Theorem next_row_done (r : Req) (w : db) (h : stmt) :
  m_stmt r = Some h -> 0 < m_cols r -> snd (sqlite3_step w h) = SQLITE_DONE ->
  next_row (r, w) =
    (Ret 0, (mkReq (Some h) (m_sql r) (m_pos r) 0, fst (sqlite3_step w h))) /\
  ~ Idle (fst (snd (next_row (r, w)))).
Proof.
  intros Hs Hc Hd.
  assert (Heq : next_row (r, w) =
            (Ret 0, (mkReq (Some h) (m_sql r) (m_pos r) 0, fst (sqlite3_step w h)))).
  { unfold next_row. cbn. rewrite Hs.
    destruct (Z.eqb_spec (m_cols r) 0); [lia |].
    destruct (sqlite3_step w h) as [w1 rc]. cbn in Hd. subst rc. reflexivity. }
  split; [exact Heq |].
  rewrite Heq. cbn. intros [Hnone _]. discriminate Hnone.
Qed.

(** ** The compile primitive *)

(** C4 (amended): when the offset has reached the length of the buffer,
    [prepare] only releases the previous handle: no handle, no call of the
    compiler, offset unchanged.  Otherwise it asks the engine to compile the
    text at the offset; when the engine reports success the handle is the one
    the engine produced, possibly none, and the offset advances by the number
    of bytes consumed (in [size_type] arithmetic, the plain sum whenever it
    fits); when the engine reports a failure an engine error is thrown and the
    offset stays.  So a [prepare] that returns leaves no handle exactly when
    the offset had reached the length or the engine compiled no statement. *)
Theorem prepare_spec (r : Req) (w : db) :
  (size (m_sql r) <= m_pos r ->
   prepare (r, w) = (Ret tt, (mkReq None (m_sql r) (m_pos r) (m_cols r), released r w)))
  /\
  (m_pos r < size (m_sql r) ->
   forall w' rc h consumed,
     sqlite3_prepare_v2 (released r w) (c_str_at (Z.to_nat (m_pos r)) (m_sql r))
                        (to_int (size_t (size (m_sql r) + 1))) = (w', (rc, h, consumed)) ->
     (rc = SQLITE_OK ->
      prepare (r, w) =
        (Ret tt, (mkReq h (m_sql r) (size_t (m_pos r + consumed)) (m_cols r), w')) /\
      (0 <= m_pos r + consumed < 2 ^ 64 -> size_t (m_pos r + consumed) = m_pos r + consumed)) /\
     (rc <> SQLITE_OK ->
      prepare (r, w) =
        (Throw (EngineError (sqlite3_errstr rc)),
         (mkReq h (m_sql r) (m_pos r) (m_cols r), w'))))
  /\
  (forall s1, prepare (r, w) = (Ret tt, s1) ->
     (m_stmt (fst s1) = None <->
      (size (m_sql r) <= m_pos r \/
       snd (fst (snd (sqlite3_prepare_v2 (released r w)
                        (c_str_at (Z.to_nat (m_pos r)) (m_sql r))
                        (to_int (size_t (size (m_sql r) + 1)))))) = None))).
Proof.
  split; [apply prepare_exhausted |]. split.
  - intros Hlt w' rc h consumed Hc. rewrite (prepare_compiles r w w' rc consumed h Hlt Hc).
    split; intros Hrc.
    + subst rc. split; [reflexivity | apply size_t_small].
    + destruct (Z.eqb_spec rc SQLITE_OK); [contradiction | reflexivity].
  - intros s1 Hp.
    destruct (Z.lt_ge_cases (m_pos r) (size (m_sql r))) as [Hlt | Hge].
    + destruct (sqlite3_prepare_v2 (released r w) (c_str_at (Z.to_nat (m_pos r)) (m_sql r))
                  (to_int (size_t (size (m_sql r) + 1)))) as [w' [[rc h] consumed]] eqn:Hc.
      rewrite (prepare_compiles r w w' rc consumed h Hlt Hc) in Hp.
      destruct (rc =? SQLITE_OK); [| discriminate Hp].
      injection Hp as <-. cbn. split; [intros ->; right; reflexivity |].
      intros [Hge | Hn]; [lia | exact Hn].
    + rewrite (prepare_exhausted r w Hge) in Hp. injection Hp as <-. cbn.
      split; [intros _; left; exact Hge | reflexivity].
Qed.

(** ** exec_select *)

Lemma exec_select_idle (fuel : nat) (s : St) :
  m_cols (fst s) = 0 -> exec_select fuel s = exec_select_loop fuel s.
Proof. intros H. unfold exec_select. rewrite H. reflexivity. Qed.

Lemma loop_sound (fuel : nat) :
  forall s n s', exec_select_loop fuel s = Some (Ret n, s') -> select_run s n s'.
Proof.
  induction fuel as [| fuel IH]; intros s n s' H; [discriminate H |].
  cbn [exec_select_loop] in H.
  destruct (prepare s) as [[[] | e] s1] eqn:Hp; [| discriminate H].
  destruct (m_stmt (fst s1)) as [h |] eqn:Hs.
  - destruct (sqlite3_step (snd s1) h) as [w2 rc] eqn:Hstep.
    destruct (Z.eqb_spec rc SQLITE_DONE) as [-> | Hnd].
    + eapply run_skip; eauto.
    + destruct (Z.eqb_spec rc SQLITE_ROW) as [-> | Hnr]; cbn in H; [| discriminate H].
      injection H as <- <-. eapply run_row; eauto.
  - injection H as <- <-. apply run_none; assumption.
Qed.

Lemma loop_complete (s : St) (n : Z) (s' : St) :
  select_run s n s' -> exists fuel, exec_select_loop fuel s = Some (Ret n, s').
Proof.
  induction 1 as [s s1 Hp Hs | s s1 h w2 n s' Hp Hs Hstep _ [fuel IH] | s s1 h w2 Hp Hs Hstep].
  - exists 1%nat. cbn. rewrite Hp, Hs. reflexivity.
  - exists (S fuel). cbn [exec_select_loop]. rewrite Hp, Hs, Hstep. cbn. exact IH.
  - exists 1%nat. cbn. rewrite Hp, Hs, Hstep. cbn. reflexivity.
Qed.

Lemma loop_stores_count (fuel : nat) :
  forall s n s', m_cols (fst s) = 0 ->
    exec_select_loop fuel s = Some (Ret n, s') -> m_cols (fst s') = n.
Proof.
  induction fuel as [| fuel IH]; intros s n s' H0 H; [discriminate H |].
  cbn [exec_select_loop] in H.
  pose proof (prepare_frame s) as [_ Hcols].
  destruct (prepare s) as [[[] | e] s1] eqn:Hp; [| discriminate H].
  cbn in Hcols.
  destruct (m_stmt (fst s1)) as [h |] eqn:Hs.
  - destruct (sqlite3_step (snd s1) h) as [w2 rc] eqn:Hstep.
    destruct (Z.eqb_spec rc SQLITE_DONE) as [-> | Hnd].
    + apply (IH (fst s1, w2)); [cbn; congruence | exact H].
    + destruct (Z.eqb_spec rc SQLITE_ROW) as [-> | Hnr]; cbn in H; [| discriminate H].
      injection H as <- <-. reflexivity.
  - injection H as <- <-. congruence.
Qed.

(** C1: on a stream without a current row, [exec_select] returns [n] in state
    [s'] (for some number of iterations) exactly when the statement-by-statement
    run of the specification does: compile the next statement, return 0 when
    none remains, go on to the next statement when stepping produced no row,
    and on a row store and return the column count.  The value returned is the
    column count stored in the stream. *)
Theorem exec_select_spec (s : St) (n : Z) (s' : St) :
  m_cols (fst s) = 0 ->
  ((exists fuel, exec_select fuel s = Some (Ret n, s')) <-> select_run s n s') /\
  (forall fuel, exec_select fuel s = Some (Ret n, s') -> m_cols (fst s') = n).
Proof.
  intros H0. split; [split |].
  - intros [fuel H]. rewrite (exec_select_idle fuel s H0) in H.
    exact (loop_sound fuel s n s' H).
  - intros H. destruct (loop_complete s n s' H) as [fuel Hf].
    exists fuel. rewrite (exec_select_idle fuel s H0). exact Hf.
  - intros fuel H. rewrite (exec_select_idle fuel s H0) in H.
    exact (loop_stores_count fuel s n s' H0 H).
Qed.

(** *** More fuel does not change an outcome *)

Lemma loop_mono (f : nat) :
  forall f' s o, (f <= f')%nat ->
    exec_select_loop f s = Some o -> exec_select_loop f' s = Some o.
Proof.
  induction f as [| f IH]; intros f' s o Hle H; [discriminate H |].
  destruct f' as [| f']; [lia |]. cbn [exec_select_loop] in *.
  destruct (prepare s) as [[[] | e] s1]; [| exact H].
  destruct (m_stmt (fst s1)) as [h |]; [| exact H].
  destruct (sqlite3_step (snd s1) h) as [w2 rc].
  destruct (rc =? SQLITE_DONE); [| exact H].
  apply IH; [lia | exact H].
Qed.

Lemma exec_select_mono (f f' : nat) (s : St) (o : res Z * St) :
  (f <= f')%nat -> exec_select f s = Some o -> exec_select f' s = Some o.
Proof.
  unfold exec_select. destruct (negb (m_cols (fst s) =? 0)); [intros _ H; exact H |].
  apply loop_mono.
Qed.

Lemma drain_rows_mono (f : nat) :
  forall f' s o, (f <= f')%nat -> drain_rows f s = Some o -> drain_rows f' s = Some o.
Proof.
  induction f as [| f IH]; intros f' s o Hle H; [discriminate H |].
  destruct f' as [| f']; [lia |]. cbn [drain_rows] in *.
  destruct (next_row s) as [[n | e] s1]; [| exact H].
  destruct (n =? 0); [exact H |]. apply IH; [lia | exact H].
Qed.

Lemma exec_mono (f : nat) :
  forall f' s o, (f <= f')%nat -> exec f s = Some o -> exec f' s = Some o.
Proof.
  unfold exec. intros f' s o Hle.
  destruct (negb (m_cols (fst s) =? 0)); [intros H; exact H |].
  revert f' s o Hle.
  induction f as [| f IH]; intros f' s o Hle H; [discriminate H |].
  destruct f' as [| f']; [lia |]. cbn [exec_loop] in *.
  destruct (exec_select f s) as [[[r | e] s1] |] eqn:Hsel; [| | discriminate H].
  - rewrite (exec_select_mono f f' s _ ltac:(lia) Hsel).
    destruct (r =? 0); [exact H |].
    destruct (drain_rows f s1) as [[[[] | e] s2] |] eqn:Hd; [| | discriminate H].
    + rewrite (drain_rows_mono f f' s1 _ ltac:(lia) Hd). apply IH; [lia | exact H].
    + rewrite (drain_rows_mono f f' s1 _ ltac:(lia) Hd). exact H.
  - rewrite (exec_select_mono f f' s _ ltac:(lia) Hsel). exact H.
Qed.

(** *** Termination on an engine that makes progress *)

Lemma c_str_at_length (n : nat) :
  forall s, String.length (c_str_at n s) = (String.length s - n)%nat.
Proof.
  induction n as [| n IH]; intros [| c s]; cbn; try reflexivity.
  apply IH.
Qed.

Lemma loop_terminates (Hprog : progresses) (k : nat) :
  forall s, 0 <= m_pos (fst s) -> size (m_sql (fst s)) + 1 < 2 ^ 64 ->
            size (m_sql (fst s)) - m_pos (fst s) <= Z.of_nat k ->
            exists out, exec_select_loop (S k) s = Some out.
Proof.
  induction k as [| k IH]; intros [r w] Hpos Hsz Hk; cbn [fst] in *.
  - cbn [exec_select_loop]. rewrite prepare_exhausted by lia. cbn. eauto.
  - cbn [exec_select_loop].
    destruct (Z.lt_ge_cases (m_pos r) (size (m_sql r))) as [Hlt | Hge];
      [| rewrite prepare_exhausted by lia; cbn; eauto].
    destruct (sqlite3_prepare_v2 (released r w) (c_str_at (Z.to_nat (m_pos r)) (m_sql r))
                (to_int (size_t (size (m_sql r) + 1)))) as [w' [[rc h] consumed]] eqn:Hc.
    rewrite (prepare_compiles r w w' rc consumed h Hlt Hc).
    destruct (Z.eqb_spec rc SQLITE_OK) as [-> | Hrc]; [| eauto].
    cbn [fst snd m_stmt m_sql m_pos]. destruct h as [h |]; [| eauto].
    destruct (sqlite3_step w' h) as [w2 rs] eqn:Hstep.
    destruct (Z.eqb_spec rs SQLITE_DONE) as [-> | Hnd];
      [| destruct (negb (rs =? SQLITE_ROW)); eauto].
    pose proof (Hprog _ _ _ _ _ _ Hc) as Hcons.
    unfold size in Hcons at 1. rewrite c_str_at_length in Hcons.
    fold (exec_select_loop (S k)). apply IH; cbn [fst m_pos m_sql].
    + unfold size_t. apply Z.mod_pos_bound. lia.
    + exact Hsz.
    + unfold size in *. rewrite size_t_small by lia. lia.
Qed.

(** On an engine that makes progress [exec_select] comes to an end within as
    many iterations as bytes are left in the buffer, plus one. *)
Lemma exec_select_terminates (Hprog : progresses) (s : St) :
  0 <= m_pos (fst s) -> size (m_sql (fst s)) + 1 < 2 ^ 64 ->
  exists out,
    exec_select (S (Z.to_nat (size (m_sql (fst s)) - m_pos (fst s)))) s = Some out.
Proof.
  intros Hpos Hsz. unfold exec_select.
  destruct (negb (m_cols (fst s) =? 0)); [eauto |].
  apply (loop_terminates Hprog); [exact Hpos | exact Hsz | lia].
Qed.

(** ** The column count and the compiled handle *)

Lemma no_count_has_handle (r : Req) : m_cols r = 0 -> count_has_handle r.
Proof. intros H Hn. contradiction. Qed.

Lemma loop_keeps (fuel : nat) :
  forall s out s', m_cols (fst s) = 0 ->
    exec_select_loop fuel s = Some (out, s') -> count_has_handle (fst s').
Proof.
  induction fuel as [| fuel IH]; intros s out s' H0 H; [discriminate H |].
  cbn [exec_select_loop] in H.
  pose proof (prepare_frame s) as [_ Hcols]. rewrite H0 in Hcols.
  destruct (prepare s) as [[[] | e] s1] eqn:Hp; cbn in Hcols.
  - destruct (m_stmt (fst s1)) as [h |] eqn:Hs.
    + destruct (sqlite3_step (snd s1) h) as [w2 rc] eqn:Hstep.
      destruct (rc =? SQLITE_DONE).
      * apply (IH (fst s1, w2) out s'); [exact Hcols | exact H].
      * destruct (negb (rc =? SQLITE_ROW)); injection H as <- <-; cbn.
        -- apply no_count_has_handle. exact Hcols.
        -- intros _. discriminate.
    + injection H as <- <-. apply no_count_has_handle. exact Hcols.
  - injection H as <- <-. apply no_count_has_handle. exact Hcols.
Qed.

Lemma exec_select_keeps (fuel : nat) (s : St) (out : res Z) (s' : St) :
  count_has_handle (fst s) -> exec_select fuel s = Some (out, s') ->
  count_has_handle (fst s').
Proof.
  intros Hi H. unfold exec_select in H.
  destruct (Z.eqb_spec (m_cols (fst s)) 0) as [H0 | Hn]; cbn in H.
  - exact (loop_keeps fuel s out s' H0 H).
  - injection H as <- <-. exact Hi.
Qed.

Lemma next_row_keeps (s : St) :
  count_has_handle (fst s) -> count_has_handle (fst (snd (next_row s))).
Proof.
  intros Hi. unfold next_row.
  destruct (m_stmt (fst s)) as [h |] eqn:Hs; [| exact Hi].
  destruct (m_cols (fst s) =? 0); [exact Hi |].
  destruct (sqlite3_step (snd s) h) as [w1 rc].
  destruct (rc =? SQLITE_DONE); [apply no_count_has_handle; reflexivity |].
  destruct (negb (rc =? SQLITE_ROW)); exact Hi.
Qed.

Lemma drain_rows_keeps (fuel : nat) :
  forall s out s', count_has_handle (fst s) ->
    drain_rows fuel s = Some (out, s') -> count_has_handle (fst s').
Proof.
  induction fuel as [| fuel IH]; intros s out s' Hi H; [discriminate H |].
  cbn [drain_rows] in H. pose proof (next_row_keeps s Hi) as Hn.
  destruct (next_row s) as [[n | e] s1]; cbn in Hn.
  - destruct (n =? 0).
    + injection H as <- <-. exact Hn.
    + exact (IH s1 out s' Hn H).
  - injection H as <- <-. exact Hn.
Qed.

Lemma exec_loop_keeps (fuel : nat) :
  forall s out s', count_has_handle (fst s) ->
    exec_loop fuel s = Some (out, s') -> count_has_handle (fst s').
Proof.
  induction fuel as [| fuel IH]; intros s out s' Hi H; [discriminate H |].
  cbn [exec_loop] in H.
  destruct (exec_select fuel s) as [[[r | e] s1] |] eqn:Hsel; [| | discriminate H].
  - pose proof (exec_select_keeps fuel s _ s1 Hi Hsel) as H1.
    destruct (r =? 0); [injection H as <- <-; exact H1 |].
    destruct (drain_rows fuel s1) as [[[[] | e] s2] |] eqn:Hd; [| | discriminate H].
    + exact (IH s2 out s' (drain_rows_keeps fuel s1 _ s2 H1 Hd) H).
    + injection H as <- <-. exact (drain_rows_keeps fuel s1 _ s2 H1 Hd).
  - injection H as <- <-. exact (exec_select_keeps fuel s _ s1 Hi Hsel).
Qed.

Lemma exec_keeps (fuel : nat) (s : St) (out : res unit) (s' : St) :
  count_has_handle (fst s) -> exec fuel s = Some (out, s') -> count_has_handle (fst s').
Proof.
  intros Hi H. unfold exec in H.
  destruct (negb (m_cols (fst s) =? 0)).
  - injection H as <- <-. exact Hi.
  - exact (exec_loop_keeps fuel s out s' Hi H).
Qed.

(** C5: in every state that a request reaches from its constructor through
    [sql() <<], [clear], [reset], [exec_select], [next_row] and [exec], returning
    or throwing, a column count other than 0 comes with a compiled handle. *)
Theorem reachable_count_has_handle (r : Req) :
  reachable r -> m_cols r <> 0 -> m_stmt r <> None.
Proof.
  intros Hr. change (count_has_handle r).
  induction Hr as [ | r w text s' _ IH Heq | r w s' _ IH Heq | r w s' _ IH Heq
                    | r w fuel out s' _ IH Heq | r w s' _ IH Heq
                    | r w fuel out s' _ IH Heq ].
  - apply no_count_has_handle. reflexivity.
  - subst s'. exact IH.
  - subst s'. rewrite clear_eq. apply no_count_has_handle. reflexivity.
  - subst s'. rewrite reset_eq. apply no_count_has_handle. reflexivity.
  - exact (exec_select_keeps fuel (r, w) out s' IH Heq).
  - subst s'. exact (next_row_keeps (r, w) IH).
  - exact (exec_keeps fuel (r, w) out s' IH Heq).
Qed.

(** ** class Trans *)

Lemma begin_eq (fuel : nat) (t : Trans) (w : db) :
  begin fuel (t, w) =
    if m_active t
    then Some (Throw (UsageError "begin() transaction when already active"), (t, w))
    else match run_sql fuel "BEGIN;" w with
         | None => None
         | Some (Throw e, w') => Some (Throw e, (t, w'))
         | Some (Ret _, w') => Some (Ret tt, (mkTrans true, w'))
         end.
Proof. reflexivity. Qed.

Lemma commit_eq (fuel : nat) (t : Trans) (w : db) :
  commit fuel (t, w) =
    if m_active t
    then match run_sql fuel "COMMIT;" w with
         | None => None
         | Some (Throw e, w') => Some (Throw e, (t, w'))
         | Some (Ret _, w') => Some (Ret tt, (mkTrans false, w'))
         end
    else Some (Throw (UsageError "commit() transaction when not active"), (t, w)).
Proof. unfold commit. cbn. destruct (m_active t); reflexivity. Qed.

Lemma abort_eq (fuel : nat) (t : Trans) (w : db) :
  abort fuel (t, w) =
    if m_active t
    then match run_sql fuel "ROLLBACK;" w with
         | None => None
         | Some (Throw e, w') => Some (Throw e, (t, w'))
         | Some (Ret _, w') => Some (Ret tt, (mkTrans false, w'))
         end
    else Some (Throw (UsageError "abort() transaction when not active"), (t, w)).
Proof. unfold abort. cbn. destruct (m_active t); reflexivity. Qed.

(** One statement through a request of its own: the engine compiles the whole
    text, the statement is stepped once and released, whether the step
    completes or fails. *)
Lemma loop_one (fuel : nat) (text : string) (w w1 w2 : db) (h : stmt) (consumed rc : Z) :
  0 < size text ->
  sqlite3_prepare_v2 w text (to_int (size_t (size text + 1)))
    = (w1, (SQLITE_OK, Some h, consumed)) ->
  size text <= consumed < 2 ^ 64 ->
  sqlite3_step w1 h = (w2, rc) ->
  rc <> SQLITE_ROW ->
  exec_select_loop (S (S fuel)) (mkReq None text 0 0, w) =
    if rc =? SQLITE_DONE
    then Some (Ret 0, (mkReq None text consumed 0, sqlite3_finalize w2 h))
    else Some (Throw (EngineError (sqlite3_errstr rc)), (mkReq (Some h) text consumed 0, w2)).
Proof.
  intros Hne Hc Hcons Hstep Hrow.
  cbn [exec_select_loop].
  rewrite (prepare_compiles (mkReq None text 0 0) w w1 SQLITE_OK consumed (Some h)); trivial.
  cbn [Z.eqb SQLITE_OK fst snd m_stmt m_sql m_pos m_cols Z.add]. rewrite Hstep.
  rewrite (size_t_small consumed) by lia.
  destruct (Z.eqb_spec rc SQLITE_DONE) as [-> | Hnd].
  - rewrite prepare_exhausted by (cbn; lia). reflexivity.
  - destruct (Z.eqb_spec rc SQLITE_ROW); [contradiction |]. reflexivity.
Qed.

Lemma run_sql_one (fuel : nat) (text : string) (w w1 w2 : db) (h : stmt) (consumed rc : Z) :
  0 < size text ->
  sqlite3_prepare_v2 w text (to_int (size_t (size text + 1)))
    = (w1, (SQLITE_OK, Some h, consumed)) ->
  size text <= consumed < 2 ^ 64 ->
  sqlite3_step w1 h = (w2, rc) ->
  rc <> SQLITE_ROW ->
  run_sql (S (S (S fuel))) text w =
    Some (if rc =? SQLITE_DONE then Ret tt else Throw (EngineError (sqlite3_errstr rc)),
          sqlite3_finalize w2 h).
Proof.
  intros Hne Hc Hcons Hstep Hrow.
  unfold run_sql, exec.
  change (snd (sql_append text (Req_new, w))) with (mkReq None text 0 0, w).
  cbn [fst m_cols Z.eqb negb exec_loop].
  rewrite exec_select_idle by reflexivity.
  rewrite (loop_one fuel text w w1 w2 h consumed rc); trivial.
  destruct (rc =? SQLITE_DONE); reflexivity.
Qed.

(** The flag after a call: what the call sets when it returns, the old value
    when it throws. *)
Lemma call_flag (c : tcall) (fuel : nat) (t : Trans) (w : db) (out : res unit) (s' : TSt) :
  call c fuel (t, w) = Some (out, s') ->
  m_active (fst s') =
    if returned out then match c with CBegin => true | _ => false end else m_active t.
Proof.
  intros H. destruct c; cbn [call] in H;
    [rewrite begin_eq in H | rewrite commit_eq in H | rewrite abort_eq in H];
    destruct (m_active t) eqn:Ha;
    try (injection H as <- <-; cbn; congruence);
    match type of H with
    | context [run_sql ?f ?q ?w0] =>
      destruct (run_sql f q w0) as [[[[] | e] w'] |]; [| | discriminate H];
        injection H as <- <-; cbn; congruence
    end.
Qed.

(** C3 (amended): destroying an active [Trans] runs [abort], which sends
    [ROLLBACK] through a request of its own.  When that request runs without
    an error the flag is cleared and the destructor body ends normally.  An
    error of the rollback is not caught: it leaves the body of the destructor
    as the exception it is, and the flag is still set.  In particular, when
    the engine compiles [ROLLBACK;] and stepping it fails with code [rc], the
    body throws the engine error of [rc]. *)
Theorem Trans_dtor_active (fuel : nat) (t : Trans) (w : db) :
  m_active t = true ->
  (forall w', run_sql fuel "ROLLBACK;" w = Some (Ret tt, w') ->
              Trans_dtor fuel (t, w) = Some (Ret tt, (mkTrans false, w'))) /\
  (forall e w', run_sql fuel "ROLLBACK;" w = Some (Throw e, w') ->
                Trans_dtor fuel (t, w) = Some (Throw e, (t, w'))) /\
  (forall out s', Trans_dtor fuel (t, w) = Some (out, s') ->
                  exists w', run_sql fuel "ROLLBACK;" w = Some (out, w') /\ snd s' = w') /\
  (forall w1 w2 h consumed rc,
     sqlite3_prepare_v2 w "ROLLBACK;" (to_int (size_t (size "ROLLBACK;" + 1)))
       = (w1, (SQLITE_OK, Some h, consumed)) ->
     size "ROLLBACK;" <= consumed < 2 ^ 64 ->
     sqlite3_step w1 h = (w2, rc) ->
     rc <> SQLITE_ROW -> rc <> SQLITE_DONE ->
     Trans_dtor (S (S (S fuel))) (t, w) =
       Some (Throw (EngineError (sqlite3_errstr rc)), (t, sqlite3_finalize w2 h))).
Proof.
  intros Ha. unfold Trans_dtor. cbn [fst]. rewrite Ha, !abort_eq, Ha.
  repeat split.
  - intros w' H. rewrite H. reflexivity.
  - intros e w' H. rewrite H. reflexivity.
  - intros out s' H.
    destruct (run_sql fuel "ROLLBACK;" w) as [[[[] | e] w'] |]; [| | discriminate H];
      injection H as <- <-; exists w'; split; reflexivity.
  - intros w1 w2 h consumed rc Hc Hcons Hstep Hrow Hdone.
    rewrite (run_sql_one fuel "ROLLBACK;" w w1 w2 h consumed rc); trivial; [| cbn; lia].
    destruct (Z.eqb_spec rc SQLITE_DONE); [contradiction | reflexivity].
Qed.

(** C9 (amended): [begin] on an active transaction, and [commit] and [abort]
    on an inactive one, throw a usage error and change nothing.  Otherwise the
    statement ([BEGIN], [COMMIT], [ROLLBACK]) is sent through a request of its
    own; when it runs without an error the flag becomes true for [begin] and
    false for [commit] and [abort]; an error of the engine is passed on and
    leaves the flag as it was (so a [BEGIN] that the engine compiles and
    fails to step leaves the transaction inactive).  Hence after any calls the
    flag is true exactly when the newest call that returned is a [begin]. *)
Theorem Trans_protocol :
  (forall fuel t w,
     m_active t = true ->
     begin fuel (t, w) =
       Some (Throw (UsageError "begin() transaction when already active"), (t, w)) /\
     commit fuel (t, w) =
       match run_sql fuel "COMMIT;" w with
       | None => None
       | Some (Throw e, w') => Some (Throw e, (t, w'))
       | Some (Ret _, w') => Some (Ret tt, (mkTrans false, w'))
       end /\
     abort fuel (t, w) =
       match run_sql fuel "ROLLBACK;" w with
       | None => None
       | Some (Throw e, w') => Some (Throw e, (t, w'))
       | Some (Ret _, w') => Some (Ret tt, (mkTrans false, w'))
       end) /\
  (forall fuel t w,
     m_active t = false ->
     begin fuel (t, w) =
       match run_sql fuel "BEGIN;" w with
       | None => None
       | Some (Throw e, w') => Some (Throw e, (t, w'))
       | Some (Ret _, w') => Some (Ret tt, (mkTrans true, w'))
       end /\
     commit fuel (t, w) =
       Some (Throw (UsageError "commit() transaction when not active"), (t, w)) /\
     abort fuel (t, w) =
       Some (Throw (UsageError "abort() transaction when not active"), (t, w))) /\
  (forall fuel t w w1 w2 h consumed rc,
     m_active t = false ->
     sqlite3_prepare_v2 w "BEGIN;" (to_int (size_t (size "BEGIN;" + 1)))
       = (w1, (SQLITE_OK, Some h, consumed)) ->
     size "BEGIN;" <= consumed < 2 ^ 64 ->
     sqlite3_step w1 h = (w2, rc) ->
     rc <> SQLITE_ROW ->
     begin (S (S (S fuel))) (t, w) =
       if rc =? SQLITE_DONE
       then Some (Ret tt, (mkTrans true, sqlite3_finalize w2 h))
       else Some (Throw (EngineError (sqlite3_errstr rc)), (t, sqlite3_finalize w2 h))) /\
  (forall t log, history t log -> m_active t = open_txn log).
Proof.
  repeat apply conj.
  - intros fuel t w Ha. rewrite begin_eq, commit_eq, abort_eq, Ha.
    repeat split.
  - intros fuel t w Ha. rewrite begin_eq, commit_eq, abort_eq, Ha.
    repeat split.
  - intros fuel t w w1 w2 h consumed rc Ha Hc Hcons Hstep Hrow.
    rewrite begin_eq, Ha.
    rewrite (run_sql_one fuel "BEGIN;" w w1 w2 h consumed rc); trivial; [| cbn; lia].
    destruct (rc =? SQLITE_DONE); reflexivity.
  - intros t log Hh.
    induction Hh as [| c fuel t w out s' log _ IH Hcall]; [reflexivity |].
    rewrite (call_flag c fuel t w out s' Hcall). cbn [open_txn].
    destruct (returned out); [destruct c; reflexivity | exact IH].
Qed.

(** * Further properties of the source *)

(** ** next_row: guards, frame, and the state after an engine error *)

(** [next_row] throws a usage error exactly when there is no compiled handle
    or no current row, and then neither the request nor the engine changes. *)
Theorem next_row_usage (r : Req) (w : db) :
  (exists what, next_row (r, w) = (Throw (UsageError what), (r, w))) <->
  (m_stmt r = None \/ m_cols r = 0).
Proof.
  unfold next_row. cbn [fst snd].
  destruct (m_stmt r) as [h |] eqn:Hs.
  - destruct (Z.eqb_spec (m_cols r) 0) as [H0 | Hn].
    + split; [intros _; right; exact H0 | intros _; eexists; reflexivity].
    + destruct (sqlite3_step w h) as [w1 rc].
      destruct (rc =? SQLITE_DONE); [| destruct (negb (rc =? SQLITE_ROW))];
        (split; [intros [what H]; discriminate H
                | intros [H | H]; [discriminate H | contradiction]]).
  - split; [intros _; left; reflexivity | intros _; eexists; reflexivity].
Qed.

Lemma next_row_sql (s : St) : m_sql (fst (snd (next_row s))) = m_sql (fst s).
Proof.
  destruct s as [r w]. unfold next_row. cbn [fst snd].
  destruct (m_stmt r) as [h |]; [| reflexivity].
  destruct (m_cols r =? 0); [reflexivity |].
  destruct (sqlite3_step w h) as [w1 rc].
  destruct (rc =? SQLITE_DONE); [reflexivity |].
  destruct (negb (rc =? SQLITE_ROW)); reflexivity.
Qed.


(** When stepping fails in [next_row] the engine error is thrown and the
    request stays as it was, its column count other than 0.  In that state
    [exec_select] and [exec] throw a usage error and leave the request as it
    is, whatever the engine state; a further [next_row] leaves the request as
    it is too, unless the engine then reports completion, in which case it
    returns 0 and sets the column count to 0; [clear] and [reset] set the
    column count to 0. *)
Theorem next_row_error_blocks (r : Req) (w w1 : db) (h : stmt) (rc : Z) :
  m_stmt r = Some h -> m_cols r <> 0 ->
  sqlite3_step w h = (w1, rc) -> rc <> SQLITE_DONE -> rc <> SQLITE_ROW ->
  next_row (r, w) = (Throw (EngineError (sqlite3_errstr rc)), (r, w1)) /\
  (forall fuel w',
     exec_select fuel (r, w') =
       Some (Throw (UsageError "exec_select() called with current row data"), (r, w')) /\
     exec fuel (r, w') =
       Some (Throw (UsageError "exec() called with current row data"), (r, w'))) /\
  (forall w',
     (snd (sqlite3_step w' h) <> SQLITE_DONE -> fst (snd (next_row (r, w'))) = r) /\
     (snd (sqlite3_step w' h) = SQLITE_DONE ->
      next_row (r, w') =
        (Ret 0, (mkReq (Some h) (m_sql r) (m_pos r) 0, fst (sqlite3_step w' h))))) /\
  (forall w', m_cols (fst (snd (reset (r, w')))) = 0 /\
              m_cols (fst (snd (clear (r, w')))) = 0).
Proof.
  intros Hs Hc Hstep Hd Hr.
  assert (Hnext : forall w',
             (snd (sqlite3_step w' h) <> SQLITE_DONE -> fst (snd (next_row (r, w'))) = r) /\
             (snd (sqlite3_step w' h) = SQLITE_DONE ->
              next_row (r, w') =
                (Ret 0, (mkReq (Some h) (m_sql r) (m_pos r) 0, fst (sqlite3_step w' h))))).
  { intros w'. unfold next_row. cbn [fst snd]. rewrite Hs.
    destruct (Z.eqb_spec (m_cols r) 0); [contradiction |].
    destruct (sqlite3_step w' h) as [w2 rs]. cbn [fst snd].
    destruct (Z.eqb_spec rs SQLITE_DONE) as [-> | Hnd].
    - split; [intros Hx; contradiction | reflexivity].
    - split; [| intros Hx; contradiction].
      intros _. destruct (negb (rs =? SQLITE_ROW)); reflexivity. }
  split; [| split; [| split; [exact Hnext |]]]; repeat split.
  - unfold next_row. cbn [fst snd]. rewrite Hs, Hstep.
    destruct (Z.eqb_spec (m_cols r) 0); [contradiction |].
    destruct (Z.eqb_spec rc SQLITE_DONE); [contradiction |].
    destruct (Z.eqb_spec rc SQLITE_ROW); [contradiction |]. reflexivity.
  - unfold exec_select. cbn [fst].
    destruct (Z.eqb_spec (m_cols r) 0); [contradiction | reflexivity].
  - unfold exec. cbn [fst].
    destruct (Z.eqb_spec (m_cols r) 0); [contradiction | reflexivity].
  - rewrite reset_eq. reflexivity.
  - rewrite clear_eq. reflexivity.
Qed.

(** ** exec_select: what it throws and what it returns *)

Lemma prepare_throws (s : St) (e : exn) (s1 : St) :
  prepare s = (Throw e, s1) ->
  (exists what, e = EngineError what) /\ m_pos (fst s1) = m_pos (fst s).
Proof.
  destruct s as [r w]. intros H.
  destruct (Z.lt_ge_cases (m_pos r) (size (m_sql r))) as [Hlt | Hge].
  - destruct (sqlite3_prepare_v2 (released r w) (c_str_at (Z.to_nat (m_pos r)) (m_sql r))
                (to_int (size_t (size (m_sql r) + 1)))) as [w' [[rc h] consumed]] eqn:Hc.
    rewrite (prepare_compiles r w w' rc consumed h Hlt Hc) in H.
    destruct (rc =? SQLITE_OK); [discriminate H |].
    injection H as <- <-. split; [eexists; reflexivity | reflexivity].
  - rewrite (prepare_exhausted r w Hge) in H. discriminate H.
Qed.

Lemma loop_outcome (fuel : nat) :
  forall s out s', m_cols (fst s) = 0 ->
    exec_select_loop fuel s = Some (out, s') ->
    m_sql (fst s') = m_sql (fst s) /\
    match out with
    | Ret n => m_cols (fst s') = n /\
               (n <> 0 -> m_stmt (fst s') <> None) /\
               (rows_have_columns -> n = 0 -> m_stmt (fst s') = None)
    | Throw e => m_cols (fst s') = 0 /\ exists what, e = EngineError what
    end.
Proof.
  induction fuel as [| fuel IH]; intros s out s' H0 H; [discriminate H |].
  cbn [exec_select_loop] in H.
  pose proof (prepare_frame s) as [Hsql Hcols]. rewrite H0 in Hcols.
  destruct (prepare s) as [[[] | e] s1] eqn:Hp; cbn [fst snd] in Hsql, Hcols.
  - destruct (m_stmt (fst s1)) as [h |] eqn:Hs.
    + destruct (sqlite3_step (snd s1) h) as [w2 rc] eqn:Hstep.
      destruct (Z.eqb_spec rc SQLITE_DONE) as [-> | Hnd].
      * destruct (IH (fst s1, w2) out s' Hcols H) as [Hq Ho].
        split; [cbn [fst] in Hq; congruence | exact Ho].
      * destruct (Z.eqb_spec rc SQLITE_ROW) as [-> | Hnr]; cbn [negb] in H;
          injection H as <- <-; cbn [fst m_sql m_cols m_stmt].
        -- split; [exact Hsql |]. split; [reflexivity |].
           split; [intros _; discriminate |].
           intros Hrows Hz. destruct (Hrows _ _ _ Hstep Hz).
        -- split; [exact Hsql |]. split; [exact Hcols | eexists; reflexivity].
    + injection H as <- <-. split; [exact Hsql |]. split; [exact Hcols |].
      split; [intros Hn; contradiction | intros _ _; exact Hs].
  - injection H as <- <-. split; [exact Hsql |]. split; [exact Hcols |].
    exact (proj1 (prepare_throws s e s1 Hp)).
Qed.

(** On a stream without a current row, [exec_select] throws nothing but
    engine errors, and after such an error the column count is still 0 and the
    buffer is as it was: the stream accepts [exec_select] again. *)
Theorem exec_select_throws_engine (fuel : nat) (s : St) (e : exn) (s' : St) :
  m_cols (fst s) = 0 ->
  exec_select fuel s = Some (Throw e, s') ->
  (exists what, e = EngineError what) /\
  m_cols (fst s') = 0 /\ m_sql (fst s') = m_sql (fst s).
Proof.
  intros H0 H. rewrite (exec_select_idle fuel s H0) in H.
  destruct (loop_outcome fuel s _ s' H0 H) as [Hq [Hc He]]. auto.
Qed.

(** A statement that does not compile is met again by the next call, because
    the offset stays in front of it; a statement that compiles and then fails
    to step is not run again, because the offset has moved behind it. *)
Theorem exec_select_failed_statement (fuel : nat) (r : Req) (w w' : db)
        (rc consumed : Z) (h : option stmt) :
  m_cols r = 0 -> m_pos r < size (m_sql r) ->
  sqlite3_prepare_v2 (released r w) (c_str_at (Z.to_nat (m_pos r)) (m_sql r))
                     (to_int (size_t (size (m_sql r) + 1))) = (w', (rc, h, consumed)) ->
  (rc <> SQLITE_OK ->
   exec_select (S fuel) (r, w) =
     Some (Throw (EngineError (sqlite3_errstr rc)), (mkReq h (m_sql r) (m_pos r) 0, w'))) /\
  (rc = SQLITE_OK ->
   forall h' w2 rs, h = Some h' -> sqlite3_step w' h' = (w2, rs) ->
     rs <> SQLITE_DONE -> rs <> SQLITE_ROW ->
     exec_select (S fuel) (r, w) =
       Some (Throw (EngineError (sqlite3_errstr rs)),
             (mkReq h (m_sql r) (size_t (m_pos r + consumed)) 0, w2))).
Proof.
  intros H0 Hlt Hc. split.
  - intros Hrc. rewrite exec_select_idle by exact H0. cbn [exec_select_loop].
    rewrite (prepare_compiles r w w' rc consumed h Hlt Hc).
    destruct (Z.eqb_spec rc SQLITE_OK); [contradiction |]. rewrite H0. reflexivity.
  - intros -> h' w2 rs -> Hstep Hd Hr.
    rewrite exec_select_idle by exact H0. cbn [exec_select_loop].
    rewrite (prepare_compiles r w w' SQLITE_OK consumed (Some h') Hlt Hc).
    cbn [Z.eqb SQLITE_OK fst snd m_stmt m_sql m_pos m_cols]. rewrite Hstep.
    destruct (Z.eqb_spec rs SQLITE_DONE); [contradiction |].
    destruct (Z.eqb_spec rs SQLITE_ROW); [contradiction |]. rewrite H0. reflexivity.
Qed.

(** On an engine whose rows have columns, [exec_select] returns 0 exactly
    when it leaves the stream without handle and without column count, and a
    result other than 0 is the stored column count of a stream that holds a
    handle. *)
Theorem exec_select_returns (fuel : nat) (s : St) (n : Z) (s' : St) :
  rows_have_columns -> m_cols (fst s) = 0 ->
  exec_select fuel s = Some (Ret n, s') ->
  m_cols (fst s') = n /\
  (n = 0 <-> m_stmt (fst s') = None) /\
  m_sql (fst s') = m_sql (fst s).
Proof.
  intros Hrows H0 H. rewrite (exec_select_idle fuel s H0) in H.
  destruct (loop_outcome fuel s _ s' H0 H) as [Hq [Hc [Hsome Hnone]]].
  split; [exact Hc |]. split; [| exact Hq].
  split; [exact (Hnone Hrows) |].
  intros Hs. destruct (Z.eq_dec n 0) as [Hz | Hz]; [exact Hz |].
  destruct (Hsome Hz Hs).
Qed.

(** ** exec: its result and its errors *)

Lemma drain_rows_outcome (Hrows : rows_have_columns) (fuel : nat) :
  forall s out s', m_stmt (fst s) <> None -> m_cols (fst s) <> 0 ->
    drain_rows fuel s = Some (out, s') ->
    m_sql (fst s') = m_sql (fst s) /\
    match out with
    | Ret _ => m_cols (fst s') = 0
    | Throw e => exists what, e = EngineError what
    end.
Proof.
  induction fuel as [| fuel IH]; intros s out s' Hs Hc H; [discriminate H |].
  cbn [drain_rows] in H. unfold next_row in H.
  destruct (m_stmt (fst s)) as [h |] eqn:Hst; [| contradiction].
  destruct (Z.eqb_spec (m_cols (fst s)) 0); [contradiction |].
  destruct (sqlite3_step (snd s) h) as [w1 rc] eqn:Hstep.
  destruct (Z.eqb_spec rc SQLITE_DONE) as [-> | Hnd].
  - cbn in H. injection H as <- <-. cbn. auto.
  - destruct (Z.eqb_spec rc SQLITE_ROW) as [-> | Hnr]; cbn [negb] in H.
    + destruct (Z.eqb_spec (sqlite3_column_count w1 h) 0) as [Hz | Hz].
      * destruct (Hrows _ _ _ Hstep Hz).
      * apply (IH (fst s, w1) out s'); cbn [fst]; [rewrite Hst; discriminate | assumption | exact H].
    + injection H as <- <-. cbn. split; [reflexivity | eexists; reflexivity].
Qed.

Lemma exec_loop_outcome (Hrows : rows_have_columns) (fuel : nat) :
  forall s out s', m_cols (fst s) = 0 ->
    exec_loop fuel s = Some (out, s') ->
    m_sql (fst s') = m_sql (fst s) /\
    match out with
    | Ret _ => Idle (fst s')
    | Throw e => exists what, e = EngineError what
    end.
Proof.
  induction fuel as [| fuel IH]; intros s out s' H0 H; [discriminate H |].
  cbn [exec_loop] in H. rewrite (exec_select_idle fuel s H0) in H.
  destruct (exec_select_loop fuel s) as [[[r | e] s1] |] eqn:Hsel; [| | discriminate H].
  - destruct (loop_outcome fuel s _ s1 H0 Hsel) as [Hq [Hc [Hsome Hnone]]].
    destruct (Z.eqb_spec r 0) as [-> | Hr].
    + injection H as <- <-. split; [exact Hq |]. split; [exact (Hnone Hrows eq_refl) | exact Hc].
    + destruct (drain_rows fuel s1) as [[[[] | e] s2] |] eqn:Hd; [| | discriminate H].
      * destruct (drain_rows_outcome Hrows fuel s1 _ s2 (Hsome Hr) ltac:(congruence) Hd)
          as [Hq2 Hc2].
        destruct (IH s2 out s' Hc2 H) as [Hq3 Ho]. split; [congruence | exact Ho].
      * injection H as <- <-.
        destruct (drain_rows_outcome Hrows fuel s1 _ s2 (Hsome Hr) ltac:(congruence) Hd)
          as [Hq2 He].
        split; [congruence | exact He].
  - injection H as <- <-.
    destruct (loop_outcome fuel s _ s1 H0 Hsel) as [Hq [_ He]]. split; assumption.
Qed.

(** On an engine whose rows have columns, when [exec] returns the stream has
    no handle and no column count, and its buffer is as it was. *)
Theorem exec_returns_idle (fuel : nat) (s s' : St) :
  rows_have_columns ->
  exec fuel s = Some (Ret tt, s') ->
  Idle (fst s') /\ m_sql (fst s') = m_sql (fst s).
Proof.
  intros Hrows H. unfold exec in H.
  destruct (Z.eqb_spec (m_cols (fst s)) 0) as [H0 | Hn]; cbn [negb] in H; [| discriminate H].
  destruct (exec_loop_outcome Hrows fuel s _ s' H0 H) as [Hq Hi]. split; assumption.
Qed.

(** On an engine whose rows have columns, [exec] on a stream without a current
    row throws nothing but engine errors: the usage errors of [exec_select] and
    [next_row] cannot arise inside it. *)
Theorem exec_throws_engine (fuel : nat) (s : St) (e : exn) (s' : St) :
  rows_have_columns -> m_cols (fst s) = 0 ->
  exec fuel s = Some (Throw e, s') ->
  exists what, e = EngineError what.
Proof.
  intros Hrows H0 H. unfold exec in H. rewrite H0 in H. cbn [Z.eqb negb] in H.
  exact (proj2 (exec_loop_outcome Hrows fuel s _ s' H0 H)).
Qed.

(** ** Properties that the loops keep

    A property of the request and the engine state that [prepare] keeps, that
    stepping a statement keeps and that does not depend on the column count
    is kept by [exec_select], [next_row] and [exec], whether they return or
    throw. *)

Section Preservation.

Variable P : St -> Prop.
Hypothesis P_prepare : forall s, P s -> P (snd (prepare s)).
Hypothesis P_step : forall r w h, P (r, w) -> P (r, fst (sqlite3_step w h)).
Hypothesis P_cols :
  forall r w c, P (r, w) -> P (mkReq (m_stmt r) (m_sql r) (m_pos r) c, w).

Lemma loop_preserves (fuel : nat) :
  forall s out s', P s -> exec_select_loop fuel s = Some (out, s') -> P s'.
Proof.
  induction fuel as [| fuel IH]; intros s out s' HP H; [discriminate H |].
  cbn [exec_select_loop] in H. pose proof (P_prepare s HP) as H1.
  destruct (prepare s) as [[[] | e] [r1 w1]]; cbn [fst snd] in *.
  - destruct (m_stmt r1) as [h |] eqn:Hs.
    + pose proof (P_step r1 w1 h H1) as H2.
      destruct (sqlite3_step w1 h) as [w2 rc]. cbn [fst] in H2.
      destruct (rc =? SQLITE_DONE); [exact (IH (r1, w2) out s' H2 H) |].
      destruct (negb (rc =? SQLITE_ROW)); injection H as <- <-;
        [exact H2 | rewrite <- Hs; apply (P_cols r1 w2); exact H2].
    + injection H as <- <-. exact H1.
  - injection H as <- <-. exact H1.
Qed.

Lemma exec_select_preserves (fuel : nat) (s : St) (out : res Z) (s' : St) :
  P s -> exec_select fuel s = Some (out, s') -> P s'.
Proof.
  intros HP H. unfold exec_select in H.
  destruct (negb (m_cols (fst s) =? 0)); [injection H as <- <-; exact HP |].
  exact (loop_preserves fuel s out s' HP H).
Qed.

Lemma next_row_preserves (s : St) : P s -> P (snd (next_row s)).
Proof.
  destruct s as [r w]. intros HP. unfold next_row. cbn [fst snd].
  destruct (m_stmt r) as [h |] eqn:Hs; [| exact HP].
  destruct (m_cols r =? 0); [exact HP |].
  pose proof (P_step r w h HP) as H2.
  destruct (sqlite3_step w h) as [w1 rc]. cbn [fst] in H2.
  destruct (rc =? SQLITE_DONE);
    [cbn [snd]; rewrite <- Hs; apply (P_cols r w1); exact H2 |].
  destruct (negb (rc =? SQLITE_ROW)); exact H2.
Qed.

Lemma drain_rows_preserves (fuel : nat) :
  forall s out s', P s -> drain_rows fuel s = Some (out, s') -> P s'.
Proof.
  induction fuel as [| fuel IH]; intros s out s' HP H; [discriminate H |].
  cbn [drain_rows] in H. pose proof (next_row_preserves s HP) as H1.
  destruct (next_row s) as [[n | e] s1]; cbn [snd] in H1.
  - destruct (n =? 0); [injection H as <- <-; exact H1 | exact (IH s1 out s' H1 H)].
  - injection H as <- <-. exact H1.
Qed.

Lemma exec_preserves (fuel : nat) :
  forall s out s', P s -> exec fuel s = Some (out, s') -> P s'.
Proof.
  unfold exec. intros s out s' HP.
  destruct (negb (m_cols (fst s) =? 0)); [intros H; injection H as <- <-; exact HP |].
  revert s out s' HP.
  induction fuel as [| fuel IH]; intros s out s' HP H; [discriminate H |].
  cbn [exec_loop] in H.
  destruct (exec_select fuel s) as [[[r | e] s1] |] eqn:Hsel; [| | discriminate H].
  - pose proof (exec_select_preserves fuel s _ s1 HP Hsel) as H1.
    destruct (r =? 0); [injection H as <- <-; exact H1 |].
    destruct (drain_rows fuel s1) as [[[[] | e] s2] |] eqn:Hd; [| | discriminate H].
    + exact (IH s2 out s' (drain_rows_preserves fuel s1 _ s2 H1 Hd) H).
    + injection H as <- <-. exact (drain_rows_preserves fuel s1 _ s2 H1 Hd).
  - injection H as <- <-. exact (exec_select_preserves fuel s _ s1 HP Hsel).
Qed.

End Preservation.

(** ** The buffer *)

(** Only [sql() <<] and [clear] change the buffer: [reset], [next_row],
    [exec_select] and [exec] leave it as it was, whether they return or throw,
    so that a script can be run again after [reset] and continued after an
    error. *)
Theorem buffer_unchanged (s : St) :
  m_sql (fst (snd (reset s))) = m_sql (fst s) /\
  m_sql (fst (snd (next_row s))) = m_sql (fst s) /\
  (forall fuel out s', exec_select fuel s = Some (out, s') ->
                       m_sql (fst s') = m_sql (fst s)) /\
  (forall fuel out s', exec fuel s = Some (out, s') ->
                       m_sql (fst s') = m_sql (fst s)).
Proof.
  assert (Hprep : forall s0 : St, m_sql (fst s0) = m_sql (fst s) ->
                                  m_sql (fst (snd (prepare s0))) = m_sql (fst s)).
  { intros s0 H0. rewrite (proj1 (prepare_frame s0)). exact H0. }
  repeat apply conj.
  - destruct s as [r w]. rewrite reset_eq. reflexivity.
  - exact (next_row_sql s).
  - intros fuel out s' H.
    exact (exec_select_preserves (fun s0 => m_sql (fst s0) = m_sql (fst s))
             Hprep (fun _ _ _ H0 => H0) (fun _ _ _ H0 => H0) fuel s out s' eq_refl H).
  - intros fuel out s' H.
    exact (exec_preserves (fun s0 => m_sql (fst s0) = m_sql (fst s))
             Hprep (fun _ _ _ H0 => H0) (fun _ _ _ H0 => H0) fuel s out s' eq_refl H).
Qed.

(** ** The offset *)

Lemma size_append (a b : string) : size (a ++ b) = size a + size b.
Proof.
  unfold size. induction a as [| c a IH]; cbn [String.append String.length].
  - reflexivity.
  - rewrite !Nat2Z.inj_succ. lia.
Qed.

Lemma size_nonneg (a : string) : 0 <= size a.
Proof. unfold size. lia. Qed.

Lemma prepare_offset (Htail : tail_in_text) (s : St) :
  offset_in_buffer (fst s) -> offset_in_buffer (fst (snd (prepare s))).
Proof.
  destruct s as [r w]. unfold offset_in_buffer. cbn [fst]. intros Hin.
  destruct (Z.lt_ge_cases (m_pos r) (size (m_sql r))) as [Hlt | Hge].
  - destruct (sqlite3_prepare_v2 (released r w) (c_str_at (Z.to_nat (m_pos r)) (m_sql r))
                (to_int (size_t (size (m_sql r) + 1)))) as [w' [[rc h] consumed]] eqn:Hc.
    rewrite (prepare_compiles r w w' rc consumed h Hlt Hc).
    destruct (Z.eqb_spec rc SQLITE_OK) as [-> | Hrc]; cbn [fst snd m_pos m_sql]; [| exact Hin].
    pose proof (Htail _ _ _ _ _ _ Hc) as Hcons.
    unfold size in Hcons at 1. rewrite c_str_at_length in Hcons.
    unfold size in *. unfold size_t.
    assert (Hsum : 0 <= m_pos r + consumed) by lia.
    pose proof (Z.mod_pos_bound (m_pos r + consumed) (2 ^ 64) ltac:(lia)) as Hb.
    pose proof (Z.mod_le (m_pos r + consumed) (2 ^ 64) Hsum ltac:(lia)) as Hle.
    lia.
  - rewrite (prepare_exhausted r w Hge). exact Hin.
Qed.

(** On an engine whose tails lie within the text it was given, the offset of
    every request reached from the constructor lies between 0 and one byte
    after the end of the buffer. *)
Theorem offset_stays_in_buffer (r : Req) :
  tail_in_text -> reachable r -> offset_in_buffer r.
Proof.
  intros Htail Hr.
  pose proof (exec_select_preserves (fun s => offset_in_buffer (fst s))
                (prepare_offset Htail) (fun _ _ _ H => H) (fun _ _ _ H => H)) as Hsel.
  pose proof (exec_preserves (fun s => offset_in_buffer (fst s))
                (prepare_offset Htail) (fun _ _ _ H => H) (fun _ _ _ H => H)) as Hexec.
  pose proof (next_row_preserves (fun s => offset_in_buffer (fst s))
                (fun _ _ _ H => H) (fun _ _ _ H => H)) as Hnext.
  induction Hr as [ | r w text s' _ IH Heq | r w s' _ IH Heq | r w s' _ IH Heq
                    | r w fuel out s' _ IH Heq | r w s' _ IH Heq
                    | r w fuel out s' _ IH Heq ].
  - unfold offset_in_buffer. cbn. lia.
  - subst s'. unfold offset_in_buffer in *. cbn [sql_append fst snd m_pos m_sql].
    rewrite size_append. pose proof (size_nonneg text). lia.
  - subst s'. rewrite clear_eq. unfold offset_in_buffer. cbn. lia.
  - subst s'. rewrite reset_eq. unfold offset_in_buffer. cbn [fst snd m_pos m_sql].
    pose proof (size_nonneg (m_sql r)). lia.
  - exact (Hsel fuel (r, w) out s' IH Heq).
  - subst s'. exact (Hnext (r, w) IH).
  - exact (Hexec fuel (r, w) out s' IH Heq).
Qed.

(** ** class Trans, continued *)

(** When the body of the destructor of a [Trans] ends normally the
    transaction is inactive; and on an inactive one it asks nothing of the
    engine. *)
Theorem Trans_dtor_returns_inactive (fuel : nat) (s s' : TSt) :
  Trans_dtor fuel s = Some (Ret tt, s') ->
  m_active (fst s') = false /\ (m_active (fst s) = false -> s' = s).
Proof.
  destruct s as [t w]. unfold Trans_dtor. cbn [fst]. rewrite abort_eq.
  destruct (m_active t) eqn:Ha.
  - destruct (run_sql fuel "ROLLBACK;" w) as [[[[] | e] w'] |]; intros H;
      try discriminate H.
    injection H as <-. split; [reflexivity | discriminate].
  - intros H. injection H as <-. split; [exact Ha | reflexivity].
Qed.

(** A call that returns has passed its guard. *)
Lemma call_returns (c : tcall) (fuel : nat) (t : Trans) (w : db) (s' : TSt) :
  call c fuel (t, w) = Some (Ret tt, s') ->
  m_active t = match c with CBegin => false | _ => true end.
Proof.
  intros H. destruct c; cbn [call] in H;
    [rewrite begin_eq in H | rewrite commit_eq in H | rewrite abort_eq in H];
    destruct (m_active t); try reflexivity; discriminate H.
Qed.

Lemma history_flag (t : Trans) (log : list (tcall * bool)) :
  history t log -> m_active t = open_txn log.
Proof.
  intros Hh. induction Hh as [| c fuel t w out s' log _ IH Hcall]; [reflexivity |].
  rewrite (call_flag c fuel t w out s' Hcall). cbn [open_txn].
  destruct (returned out); [destruct c; reflexivity | exact IH].
Qed.

(** Over the life of a [Trans] the calls that return alternate: the first is
    a [begin], every [begin] is followed by a [commit] or an [abort], and these
    by a [begin].  The object never sends a second [BEGIN] that succeeds
    without a [COMMIT] or [ROLLBACK] of its own in between. *)
Theorem history_alternates (t : Trans) (log : list (tcall * bool)) :
  history t log -> alternates log = true.
Proof.
  intros Hh.
  induction Hh as [| c fuel t w out s' log Hh IH Hcall]; [reflexivity |].
  pose proof (history_flag t log Hh) as Hflag.
  destruct out as [[] | e]; cbn [returned alternates].
  - pose proof (call_returns c fuel t w s' Hcall) as Hg. rewrite Hflag in Hg.
    destruct c; rewrite Hg, IH; reflexivity.
  - destruct c; exact IH.
Qed.

(** ** The end of the buffer *)

(** On a stream without a current row whose offset has reached the end of the
    buffer, and so on a request that was just constructed, [exec_select]
    returns 0 and [exec] returns without compiling or stepping anything: they
    only release the handle that is left, if any. *)
Theorem exec_at_end (fuel : nat) (r : Req) (w : db) :
  m_cols r = 0 -> size (m_sql r) <= m_pos r ->
  exec_select (S fuel) (r, w) =
    Some (Ret 0, (mkReq None (m_sql r) (m_pos r) 0, released r w)) /\
  exec (S (S fuel)) (r, w) =
    Some (Ret tt, (mkReq None (m_sql r) (m_pos r) 0, released r w)).
Proof.
  intros H0 Hend.
  assert (Hsel : forall f, exec_select (S f) (r, w) =
                           Some (Ret 0, (mkReq None (m_sql r) (m_pos r) 0, released r w))).
  { intros f. rewrite exec_select_idle by exact H0. cbn [exec_select_loop].
    rewrite (prepare_exhausted r w Hend). rewrite H0. reflexivity. }
  split; [apply Hsel |].
  unfold exec. cbn [fst]. rewrite H0. cbn [Z.eqb negb exec_loop]. rewrite Hsel. reflexivity.
Qed.

(** ** The offset moves forward *)

(** On an engine whose tails lie within the text, and for a buffer shorter
    than the range of its offset, [exec_select] and [exec] never move the
    offset backwards, whether they return or throw. *)
Theorem offset_moves_forward (s : St) :
  tail_in_text -> offset_in_buffer (fst s) -> size (m_sql (fst s)) + 1 < 2 ^ 64 ->
  (forall fuel out s', exec_select fuel s = Some (out, s') ->
                       m_pos (fst s) <= m_pos (fst s')) /\
  (forall fuel out s', exec fuel s = Some (out, s') ->
                       m_pos (fst s) <= m_pos (fst s')).
Proof.
  intros Htail Hin Hsz.
  set (P := fun s0 : St => m_sql (fst s0) = m_sql (fst s) /\
                           offset_in_buffer (fst s0) /\ m_pos (fst s) <= m_pos (fst s0)).
  assert (Hprep : forall s0, P s0 -> P (snd (prepare s0))).
  { intros [r0 w0] (Hq & Hb & Hle). unfold P in *. cbn [fst] in *.
    pose proof (prepare_offset Htail (r0, w0) Hb) as Hb'.
    pose proof (proj1 (prepare_frame (r0, w0))) as Hq'. cbn [fst] in Hq'.
    split; [congruence |]. split; [exact Hb' |].
    destruct (Z.lt_ge_cases (m_pos r0) (size (m_sql r0))) as [Hlt | Hge].
    - destruct (sqlite3_prepare_v2 (released r0 w0) (c_str_at (Z.to_nat (m_pos r0)) (m_sql r0))
                  (to_int (size_t (size (m_sql r0) + 1)))) as [w' [[rc h] consumed]] eqn:Hc.
      rewrite (prepare_compiles r0 w0 w' rc consumed h Hlt Hc).
      destruct (Z.eqb_spec rc SQLITE_OK) as [-> | Hrc]; cbn [fst snd m_pos]; [| exact Hle].
      pose proof (Htail _ _ _ _ _ _ Hc) as Hcons.
      unfold size in Hcons at 1. rewrite c_str_at_length in Hcons.
      unfold offset_in_buffer, size in *.
      rewrite size_t_small by (rewrite Hq in *; lia). lia.
    - rewrite (prepare_exhausted r0 w0 Hge). exact Hle. }
  assert (HP : P s) by (unfold P; repeat split; try exact Hin; try lia; apply Hin).
  split; intros fuel out s' H.
  - exact (proj2 (proj2 (exec_select_preserves P Hprep (fun _ _ _ H0 => H0)
                           (fun _ _ _ H0 => H0) fuel s out s' HP H))).
  - exact (proj2 (proj2 (exec_preserves P Hprep (fun _ _ _ H0 => H0)
                           (fun _ _ _ H0 => H0) fuel s out s' HP H))).
Qed.

(** ** Reading the columns of a row *)

Ltac accessor_runs Hs Hc :=
  cbn [fst snd]; rewrite Hs;
  match goal with
  | |- context [?c =? 0] => destruct (Z.eqb_spec c 0); [contradiction |]
  end;
  match goal with
  | |- context [?i <? 0] => destruct (Z.ltb_spec i 0); [lia |]
  end;
  match goal with
  | |- context [?i >=? ?c] => destruct (Z.geb_spec i c); [lia |]
  end;
  reflexivity.

(** When [exec_select] has returned a column count [n] other than 0, a
    compiled handle is held and for every index from 0 below [n] no accessor
    throws a usage error: [col_name], [col_int], [col_int64], [col_real] and
    [col_blob] yield the engine's value of the compiled statement, and the two
    text accessors hand the engine's text pointer to [std::string], which
    yields the text when the pointer is not null. *)
Theorem row_is_readable (fuel : nat) (s : St) (n : Z) (s' : St) (i : Z) :
  m_cols (fst s) = 0 -> exec_select fuel s = Some (Ret n, s') -> 0 <= i < n ->
  exists h,
    m_stmt (fst s') = Some h /\
    col_name i s' = (Ret (sqlite3_column_name (snd s') h i), s') /\
    col_name_to i s' = (Ret (sqlite3_column_name (snd s') h i), s') /\
    col_text i s' = (std_string (sqlite3_column_text (snd s') h i), s') /\
    col_text_to i s' = (std_string (sqlite3_column_text (snd s') h i), s') /\
    col_int i s' = (Ret (sqlite3_column_int (snd s') h i), s') /\
    col_int64 i s' = (Ret (sqlite3_column_int64 (snd s') h i), s') /\
    col_real i s' = (Ret (sqlite3_column_double (snd s') h i), s') /\
    col_blob i s' = (Ret (blob_value (snd s') h i), s').
Proof.
  intros H0 H Hi. rewrite (exec_select_idle fuel s H0) in H.
  destruct (loop_outcome fuel s _ s' H0 H) as [_ [Hc [Hsome _]]].
  assert (Hn : n <> 0) by lia.
  destruct (m_stmt (fst s')) as [h |] eqn:Hs; [| destruct (Hsome Hn eq_refl)].
  assert (Hc0 : m_cols (fst s') <> 0) by congruence.
  rewrite <- Hc in Hi.
  exists h. split; [reflexivity |].
  unfold col_name, col_name_to, col_text, col_text_to, col_int, col_int64, col_real,
    col_blob, blob_value.
  repeat apply conj; accessor_runs Hs Hc0.
Qed.

Ltac accessor_refuses Hs :=
  cbn [fst snd m_stmt m_cols]; rewrite Hs; reflexivity.

(** When [next_row] has returned 0 at the end of the rows, no accessor reads
    from the statement any more: each throws the usage error of a missing row,
    although the compiled handle is still held. *)
Theorem columns_gone_after_rows (r : Req) (w : db) (h : stmt) (i : Z) :
  m_stmt r = Some h -> m_cols r <> 0 -> snd (sqlite3_step w h) = SQLITE_DONE ->
  let s' := snd (next_row (r, w)) in
  let e := UsageError "column operation called when row not available" in
  fst (next_row (r, w)) = Ret 0 /\
  col_name i s' = (Throw e, s') /\ col_name_to i s' = (Throw e, s') /\
  col_text i s' = (Throw e, s') /\ col_text_to i s' = (Throw e, s') /\
  col_int i s' = (Throw e, s') /\ col_int64 i s' = (Throw e, s') /\
  col_real i s' = (Throw e, s') /\ col_blob i s' = (Throw e, s').
Proof.
  intros Hs Hc Hd.
  assert (Hn : next_row (r, w) =
               (Ret 0, (mkReq (m_stmt r) (m_sql r) (m_pos r) 0, fst (sqlite3_step w h)))).
  { unfold next_row. cbn [fst snd]. rewrite Hs.
    destruct (Z.eqb_spec (m_cols r) 0); [contradiction |].
    destruct (sqlite3_step w h) as [w1 rc]. cbn [snd] in Hd. subst rc. reflexivity. }
  cbv zeta. rewrite Hn. cbn [fst snd].
  unfold col_name, col_name_to, col_text, col_text_to, col_int, col_int64, col_real, col_blob.
  repeat apply conj; try reflexivity; accessor_refuses Hs.
Qed.

End Properties.

(** * Resources: compiled statements and connections *)

Section Resources.

Context {E : Engine} {O : Opener}.

(** ** Recording does not change what the source does *)

Lemma prepare_forget (s : @St (recording E)) :
  prepare (forget s) = (fst (prepare s), forget (snd (prepare s))).
Proof.
  destruct s as [[h q p c] [w l]]. unfold forget, forget_req, prepare, bind, finalize.
  cbn [fst snd m_stmt m_sql m_pos m_cols get put throw ret set_pos].
  destruct h as [h |]; cbn [fst snd m_stmt m_sql m_pos m_cols get put throw ret set_pos
                            sqlite3_finalize sqlite3_prepare_v2 recording];
    (destruct (p >=? size q); [reflexivity |]);
    match goal with
    | |- context [@sqlite3_prepare_v2 E ?a ?b ?n] =>
      destruct (@sqlite3_prepare_v2 E a b n) as [w' [[rc h'] k]]
    end;
    cbn [fst snd m_stmt m_sql m_pos m_cols];
    destruct (rc =? SQLITE_OK); reflexivity.
Qed.

Lemma loop_forget (fuel : nat) :
  forall s : @St (recording E),
    exec_select_loop fuel (forget s) = forget_out (exec_select_loop fuel s).
Proof.
  induction fuel as [| fuel IH]; intros s; [reflexivity |].
  cbn [exec_select_loop]. rewrite prepare_forget.
  destruct (prepare s) as [[[] | e] [r1 [w1 l1]]]; [| reflexivity].
  cbn [fst snd forget forget_req m_stmt].
  destruct (m_stmt r1) as [h |]; [| reflexivity].
  cbn [sqlite3_step recording fst snd].
  destruct (@sqlite3_step E w1 h) as [w2 rc].
  destruct (rc =? SQLITE_DONE); [exact (IH (r1, (w2, l1))) |].
  destruct (negb (rc =? SQLITE_ROW)); reflexivity.
Qed.

Lemma exec_select_forget (fuel : nat) (s : @St (recording E)) :
  exec_select fuel (forget s) = forget_out (exec_select fuel s).
Proof.
  unfold exec_select. cbn [forget forget_req fst m_cols].
  destruct (negb (m_cols (fst s) =? 0)); [reflexivity | apply loop_forget].
Qed.

Lemma next_row_forget (s : @St (recording E)) :
  next_row (forget s) = (fst (next_row s), forget (snd (next_row s))).
Proof.
  destruct s as [r [w l]]. unfold next_row. cbn [forget forget_req fst snd m_stmt m_cols].
  destruct (m_stmt r) as [h |]; [| reflexivity].
  destruct (m_cols r =? 0); [reflexivity |].
  cbn [sqlite3_step recording fst snd].
  destruct (@sqlite3_step E w h) as [w1 rc].
  destruct (rc =? SQLITE_DONE); [reflexivity |].
  destruct (negb (rc =? SQLITE_ROW)); reflexivity.
Qed.

Lemma drain_rows_forget (fuel : nat) :
  forall s : @St (recording E),
    drain_rows fuel (forget s) = forget_out (drain_rows fuel s).
Proof.
  induction fuel as [| fuel IH]; intros s; [reflexivity |].
  cbn [drain_rows]. rewrite next_row_forget.
  destruct (next_row s) as [[n | e] s1]; [| reflexivity].
  cbn [fst snd]. destruct (n =? 0); [reflexivity | apply IH].
Qed.

(** Run on a recording engine, [exec] does to the request and to the engine
    inside what it does on that engine itself. *)
Lemma exec_forget (fuel : nat) (s : @St (recording E)) :
  exec fuel (forget s) = forget_out (exec fuel s).
Proof.
  unfold exec. cbn [forget forget_req fst m_cols].
  destruct (negb (m_cols (fst s) =? 0)); [reflexivity |].
  revert s. induction fuel as [| fuel IH]; intros s; [reflexivity |].
  cbn [exec_loop]. rewrite exec_select_forget.
  destruct (exec_select fuel s) as [[[r | e] s1] |]; [| reflexivity | reflexivity].
  cbn [forget_out]. destruct (r =? 0); [reflexivity |].
  rewrite drain_rows_forget.
  destruct (drain_rows fuel s1) as [[[[] | e] s2] |]; [| reflexivity | reflexivity].
  cbn [forget_out]. apply IH.
Qed.

(** ** Compiled statements *)

Lemma released_balanced (r : @Req (recording E)) (w : @db (recording E)) :
  balanced (m_stmt r) (snd w) -> balanced None (snd (released r w)).
Proof.
  unfold released. destruct (m_stmt r) as [h |]; intros H; [| exact H].
  cbn. apply bal_release. exact H.
Qed.

Lemma prepare_balanced (s : @St (recording E)) :
  balanced (m_stmt (fst s)) (snd (snd s)) ->
  balanced (m_stmt (fst (snd (prepare s)))) (snd (snd (snd (prepare s)))).
Proof.
  destruct s as [r w]. cbn [fst snd]. intros H.
  pose proof (released_balanced r w H) as H0.
  destruct (Z.lt_ge_cases (m_pos r) (size (m_sql r))) as [Hlt | Hge].
  - destruct (sqlite3_prepare_v2 (released r w) (c_str_at (Z.to_nat (m_pos r)) (m_sql r))
                (to_int (size_t (size (m_sql r) + 1)))) as [w' [[rc h] consumed]] eqn:Hc.
    rewrite (prepare_compiles r w w' rc consumed h Hlt Hc).
    assert (Hb : balanced h (snd w')).
    { cbn in Hc.
      destruct (@sqlite3_prepare_v2 E (fst (released r w))
                  (c_str_at (Z.to_nat (m_pos r)) (m_sql r))
                  (to_int (size_t (size (m_sql r) + 1)))) as [w1 [[rc1 h1] c1]].
      injection Hc as <- _ <- _. cbn [snd].
      destruct h1 as [h1 |]; [apply bal_acquire |]; exact H0. }
    destruct (rc =? SQLITE_OK); exact Hb.
  - rewrite (prepare_exhausted r w Hge). exact H0.
Qed.

Lemma step_balanced (r : @Req (recording E)) (w : @db (recording E)) (h : @stmt (recording E)) :
  balanced (m_stmt r) (snd w) -> balanced (m_stmt r) (snd (fst (sqlite3_step w h))).
Proof.
  intros H. cbn. destruct (@sqlite3_step E (fst w) h) as [w1 rc]. exact H.
Qed.

(** Over the life of a request, every statement that the engine compiled for
    it is released once, before the next one is compiled; at most the handle
    in [m_stmt] is outstanding, and the destructor releases that one.  This
    holds on every path, returning or throwing. *)
Theorem req_life_balanced (s : @St (recording E)) :
  req_life s ->
  balanced (m_stmt (fst s)) (snd (snd s)) /\
  balanced None (snd (snd (snd (Req_dtor s)))).
Proof.
  intros Hl.
  assert (H : balanced (m_stmt (fst s)) (snd (snd s))).
  { induction Hl as [w | s text _ IH | s _ IH | s _ IH | s fuel out s' _ IH Heq
                     | s _ IH | s fuel out s' _ IH Heq].
    - apply bal_nil.
    - destruct s as [r w]. exact IH.
    - destruct s as [r w]. rewrite clear_eq. exact (released_balanced r w IH).
    - destruct s as [r w]. rewrite reset_eq. exact (released_balanced r w IH).
    - exact (exec_select_preserves (fun s0 : @St (recording E) => balanced (m_stmt (fst s0)) (snd (snd s0)))
               prepare_balanced step_balanced (fun _ _ _ H0 => H0) fuel s out s' IH Heq).
    - exact (next_row_preserves (fun s0 : @St (recording E) => balanced (m_stmt (fst s0)) (snd (snd s0)))
               step_balanced (fun _ _ _ H0 => H0) s IH).
    - exact (exec_preserves (fun s0 : @St (recording E) => balanced (m_stmt (fst s0)) (snd (snd s0)))
               prepare_balanced step_balanced (fun _ _ _ H0 => H0) fuel s out s' IH Heq). }
  split; [exact H |].
  destruct s as [r w]. unfold Req_dtor. rewrite finalize_eq.
  exact (released_balanced r w H).
Qed.

Lemma run_sql_balanced (fuel : nat) (text : string) (w w' : @db (recording E))
      (out : res unit) :
  balanced None (snd w) ->
  run_sql fuel text w = Some (out, w') -> balanced None (snd w').
Proof.
  intros H0 H. unfold run_sql in H.
  set (s0 := snd (sql_append text (Req_new, w))) in H.
  assert (Hs0 : balanced (m_stmt (fst s0)) (snd (snd s0))) by exact H0.
  destruct (exec fuel s0) as [[o [r1 w1]] |] eqn:Hx; [| discriminate H].
  injection H as <- <-.
  pose proof (exec_preserves (fun s1 : @St (recording E) => balanced (m_stmt (fst s1)) (snd (snd s1)))
                prepare_balanced step_balanced (fun _ _ _ H1 => H1)
                fuel s0 o (r1, w1) Hs0 Hx) as H1.
  cbn beta in H1. cbn [fst snd] in H1.
  destruct (m_stmt r1) as [h |]; cbn [fst snd]; [apply bal_release |]; exact H1.
Qed.

(** Every call of a [Trans], and the body of its destructor, leaves no
    compiled statement behind: what its request compiled is released when the
    call ends, whether it returns or throws. *)
Theorem Trans_calls_release (fuel : nat) (c : tcall) (s s' : @TSt (recording E))
        (out : res unit) :
  balanced None (snd (snd s)) ->
  (call c fuel s = Some (out, s') -> balanced None (snd (snd s'))) /\
  (Trans_dtor fuel s = Some (out, s') -> balanced None (snd (snd s'))).
Proof.
  destruct s as [t w]. cbn [fst snd]. intros H0.
  assert (Hrun : forall text o (s1 : @TSt (recording E)),
             match run_sql fuel text w with
             | None => None
             | Some (Throw e, w1) => Some (Throw e, (t, w1))
             | Some (Ret _, w1) => Some (Ret tt, (mkTrans (m_active (fst s1)), w1))
             end = Some (o, s1) -> balanced None (snd (snd s1))).
  { intros text o s1 H.
    destruct (run_sql fuel text w) as [[[[] | e] w1] |] eqn:Hr; [| | discriminate H];
      injection H as <- <-; exact (run_sql_balanced fuel text w w1 _ H0 Hr). }
  assert (Habort : abort fuel (t, w) = Some (out, s') -> balanced None (snd (snd s'))).
  { rewrite abort_eq. destruct (m_active t); intros H.
    - destruct (run_sql fuel "ROLLBACK;" w) as [[[[] | e] w1] |] eqn:Hr; [| | discriminate H];
        injection H as <- <-; exact (run_sql_balanced fuel _ w w1 _ H0 Hr).
    - injection H as <- <-. exact H0. }
  split.
  - destruct c; cbn [call]; [| | exact Habort].
    + rewrite begin_eq. destruct (m_active t); intros H.
      * injection H as <- <-. exact H0.
      * destruct (run_sql fuel "BEGIN;" w) as [[[[] | e] w1] |] eqn:Hr; [| | discriminate H];
          injection H as <- <-; exact (run_sql_balanced fuel _ w w1 _ H0 Hr).
    + rewrite commit_eq. destruct (m_active t); intros H.
      * destruct (run_sql fuel "COMMIT;" w) as [[[[] | e] w1] |] eqn:Hr; [| | discriminate H];
          injection H as <- <-; exact (run_sql_balanced fuel _ w w1 _ H0 Hr).
      * injection H as <- <-. exact H0.
  - unfold Trans_dtor. cbn [fst]. destruct (m_active t) eqn:Ha; [exact Habort |].
    intros H. injection H as <- <-. exact H0.
Qed.

(** ** class Conn *)

Lemma close_balanced (c : @Conn (recording_opener O)) (w : @sys (recording_opener O)) :
  balanced (m_db c) (snd w) ->
  m_db (fst (snd (close (c, w)))) = None /\ balanced None (snd (snd (snd (close (c, w))))).
Proof.
  unfold close. destruct (m_db c) as [h |] eqn:Hd; intros H; cbn.
  - split; [reflexivity | apply bal_release; exact H].
  - split; [exact Hd | exact H].
Qed.

Lemma open_balanced (w : @sys (recording_opener O)) (uri : string) :
  balanced None (snd w) ->
  balanced (snd (snd (sqlite3_open w uri))) (snd (fst (sqlite3_open w uri))).
Proof.
  intros H. cbn. destruct (@sqlite3_open O (fst w) uri) as [w1 [rc h]]. cbn.
  destruct h as [h |]; [apply bal_acquire |]; exact H.
Qed.

(** Over the life of a connection object whose constructor returned, every
    connection that the library opened for it is closed once, before the next
    one is opened: [reopen] closes the old one first, also when the new one
    then fails to open, and the destructor closes the last. *)
Theorem conn_life_balanced (s : @CSt (recording_opener O)) :
  conn_life s ->
  balanced (m_db (fst s)) (snd (snd s)) /\
  balanced None (snd (snd (snd (Conn_dtor s)))).
Proof.
  intros Hl.
  assert (H : balanced (m_db (fst s)) (snd (snd s))).
  { induction Hl as [uri w c w' Hnew | [c w] uri _ IH].
    - unfold Conn_new in Hnew.
      pose proof (open_balanced (w, []) uri bal_nil) as Ho.
      destruct (@sqlite3_open (recording_opener O) (w, []) uri) as [w1 [rc h]].
      destruct (negb (rc =? SQLITE_OK)); [discriminate Hnew |].
      injection Hnew as <- <-. exact Ho.
    - cbn [fst snd] in IH. unfold reopen, bind.
      destruct (close_balanced c w IH) as [_ Hc].
      destruct (close (c, w)) as [[[] | e] [c1 w1]] eqn:Hclose;
        [| unfold close in Hclose; destruct (m_db c); discriminate Hclose].
      cbn [fst snd] in Hc. cbn [get put throw ret fst snd].
      pose proof (open_balanced w1 uri Hc) as Ho.
      destruct (sqlite3_open w1 uri) as [w2 [rc h]].
      destruct (negb (rc =? SQLITE_OK)); exact Ho. }
  split; [exact H |].
  destruct s as [c w]. exact (proj2 (close_balanced c w H)).
Qed.

(** [reopen] throws exactly when the library reports a result other than
    [SQLITE_OK]; in both cases the old connection was closed first and the
    object holds what the library wrote for the new one, so that a failed
    [reopen] leaves an object that can be reopened or destroyed. *)
Theorem reopen_outcome (uri : string) (c : Conn) (w w' : sys) (rc : Z) (h : option sqlite3) :
  sqlite3_open (snd (snd (close (c, w)))) uri = (w', (rc, h)) ->
  reopen uri (c, w) =
    (if rc =? SQLITE_OK then Ret tt else Throw (EngineError (sqlite3_errstr rc)),
     (mkConn h, w')) /\
  snd (snd (close (c, w))) = match m_db c with Some h0 => sqlite3_close w h0 | None => w end.
Proof.
  intros Ho. unfold reopen, bind.
  assert (Hc : close (c, w) =
               (Ret tt, (mkConn None,
                         match m_db c with Some h0 => sqlite3_close w h0 | None => w end))).
  { unfold close. destruct c as [[h0 |]]; reflexivity. }
  rewrite Hc in *. cbn [get put throw ret fst snd] in *. rewrite Ho.
  split; [| reflexivity]. destruct (rc =? SQLITE_OK); reflexivity.
Qed.

End Resources.

(** * Runs on the concrete engine *)

Section Runs.

#[local] Existing Instance Toy.engine.

(** The two states above are what the operations produce. *)
Example toy_exec_select :
  exec_select 2 (Toy.req_of "SELECT 1; ", Toy.db0) = Some (Ret 1, Toy.row_state).
Proof. reflexivity. Qed.

Example toy_next_row : next_row Toy.row_state = (Ret 0, Toy.done_state).
Proof. reflexivity. Qed.

(** The script of non-row statements of the specification: the result is 0 and
    the stream has no handle and no column count. *)
Example toy_no_rows :
  exec_select 3 (Toy.req_of "CREATE TABLE t(a);BEGIN;", Toy.db0) =
    Some (Ret 0, (mkReq None "CREATE TABLE t(a);BEGIN;" 24 0, Toy.mkState true 2 [])).
Proof. reflexivity. Qed.

(** A script with a row statement in the middle, run by [exec]. *)
Example toy_exec :
  exec 5 (Toy.req_of "CREATE TABLE t(a); VALUES(1),(2);BEGIN; ", Toy.db0) =
    Some (Ret tt, (mkReq None "CREATE TABLE t(a); VALUES(1),(2);BEGIN; " 40 0,
                   Toy.mkState true 3 [])).
Proof. reflexivity. Qed.

Example toy_progresses : progresses.
Proof.
  intros w text nByte w' h consumed H. cbn in H. unfold Toy.prepare_v2 in H.
  assert (Hts : forall t, 0 <= snd (Toy.take_stmt t) <= size t + 1 /\
                          (Toy.skip_blanks (fst (Toy.take_stmt t)) <> EmptyString ->
                           0 < snd (Toy.take_stmt t))).
  { unfold size. induction t as [| c t IH]; cbn [Toy.take_stmt].
    - cbn. split; [lia | congruence].
    - destruct (Ascii.eqb c ";").
      + cbn [fst snd String.length Toy.skip_blanks]. split; [lia | congruence].
      + destruct (Toy.take_stmt t) as [body n]. cbn [fst snd String.length] in *.
        split; [lia | intros _; lia]. }
  specialize (Hts text). destruct (Toy.take_stmt text) as [body n]. cbn [fst snd] in Hts.
  destruct (String.eqb_spec (Toy.skip_blanks body) EmptyString) as [Heq | Hne]; [discriminate H |].
  destruct (Toy.parse (Toy.skip_blanks body)); [| discriminate H].
  injection H as _ _ <-. destruct Hts as [Hb Hp]. split; [apply Hp; exact Hne | lia].
Qed.

(** ** Instances of the theorems, and the inputs on which the claims of the
    specification differ from the source *)

Lemma exec_select_spec_witness :
  m_cols (fst (Toy.req_of "CREATE TABLE t(a); SELECT 1,2;", Toy.db0)) = 0 /\
  select_run (Toy.req_of "CREATE TABLE t(a); SELECT 1,2;", Toy.db0) 2
    (mkReq (Some (1%nat, Toy.KSelect 2 1)) "CREATE TABLE t(a); SELECT 1,2;" 30 2,
     Toy.mkState false 2 [(1%nat, 1%nat)]).
Proof.
  split; [reflexivity |].
  apply (proj1 (proj1 (exec_select_spec
                         (Toy.req_of "CREATE TABLE t(a); SELECT 1,2;", Toy.db0) 2 _ eq_refl))).
  exists 2%nat. reflexivity.
Defined.

Lemma next_row_done_witness :
  m_stmt (fst Toy.row_state) = Some (0%nat, Toy.KSelect 1 1) /\
  0 < m_cols (fst Toy.row_state) /\
  snd (sqlite3_step (snd Toy.row_state) (0%nat, Toy.KSelect 1 1)) = SQLITE_DONE /\
  next_row Toy.row_state = (Ret 0, Toy.done_state) /\
  ~ Idle (fst (snd (next_row Toy.row_state))).
Proof.
  repeat (split; [reflexivity |]).
  apply (next_row_done (fst Toy.row_state) (snd Toy.row_state) (0%nat, Toy.KSelect 1 1));
    reflexivity.
Defined.

(** C2, as the specification states it, fails: the script [SELECT 1; ] has
    produced its only row; [next_row] reports the end of the rows, returns 0
    and sets the column count to 0, and the stream still holds the compiled
    handle, so it is not in the state without a handle. *)
Lemma next_row_done_not_idle_cex :
  exec_select 2 (Toy.req_of "SELECT 1; ", Toy.db0) = Some (Ret 1, Toy.row_state) /\
  RowReady (fst Toy.row_state) /\
  snd (sqlite3_step (snd Toy.row_state) (0%nat, Toy.KSelect 1 1)) = SQLITE_DONE /\
  fst (next_row Toy.row_state) = Ret 0 /\
  m_cols (fst (snd (next_row Toy.row_state))) = 0 /\
  m_stmt (fst (snd (next_row Toy.row_state))) = Some (0%nat, Toy.KSelect 1 1) /\
  ~ Idle (fst (snd (next_row Toy.row_state))).
Proof.
  split; [reflexivity |]. split; [split; [discriminate | reflexivity] |].
  repeat (split; [reflexivity |]).
  intros [Hnone _]. discriminate Hnone.
Qed.

Lemma prepare_spec_witness :
  m_pos (Toy.req_of "SELECT 1; ") < size (m_sql (Toy.req_of "SELECT 1; ")) /\
  prepare (Toy.req_of "SELECT 1; ", Toy.db0) =
    (Ret tt, (mkReq (Some (0%nat, Toy.KSelect 1 1)) "SELECT 1; " 9 0,
              Toy.mkState false 1 [(0%nat, 0%nat)])).
Proof.
  split; [reflexivity |].
  apply (proj1 (proj1 (proj1 (proj2 (prepare_spec (Toy.req_of "SELECT 1; ") Toy.db0))
                         eq_refl _ _ _ _ eq_refl) eq_refl)).
Defined.

(** C4, as the specification states it, fails: at offset 9 of the ten bytes of
    [SELECT 1; ] the offset is below the length, the engine finds only a blank
    and compiles nothing, and [prepare] returns with no handle. *)
Lemma prepare_blank_no_handle_cex :
  m_pos (fst Toy.done_state) < size (m_sql (fst Toy.done_state)) /\
  prepare Toy.done_state =
    (Ret tt, (mkReq None "SELECT 1; " 10 0, Toy.mkState false 1 [])) /\
  m_stmt (fst (snd (prepare Toy.done_state))) = None.
Proof. repeat split. Qed.

Lemma Trans_dtor_active_witness :
  m_active (mkTrans true) = true /\
  Trans_dtor 3 (mkTrans true, Toy.db_txn) =
    Some (Ret tt, (mkTrans false, Toy.mkState false 2 [])).
Proof.
  split; [reflexivity |].
  apply (proj1 (Trans_dtor_active 3 (mkTrans true) Toy.db_txn eq_refl)). reflexivity.
Defined.

(** C3, as the specification states it, fails: a transaction is begun, a
    request of the caller then runs [ROLLBACK;] on the same connection, and the
    transaction object is destroyed while its flag is still set.  The forced
    rollback fails in the engine; the error leaves the body of the destructor
    and the flag is not cleared. *)
Lemma Trans_dtor_throws_cex :
  begin 3 (Trans_new, Toy.db0) = Some (Ret tt, (mkTrans true, Toy.db_txn)) /\
  exec 3 (Toy.req_of "ROLLBACK;", Toy.db_txn) =
    Some (Ret tt, (mkReq None "ROLLBACK;" 9 0, Toy.mkState false 2 [])) /\
  Trans_dtor (E := Toy.engine) 3 (mkTrans true, Toy.mkState false 2 []) =
    Some (Throw (EngineError "SQL logic error"), (mkTrans true, Toy.mkState false 3 [])).
Proof. repeat split. Qed.

Lemma reachable_count_has_handle_witness :
  reachable (fst Toy.row_state) /\ m_cols (fst Toy.row_state) <> 0 /\
  m_stmt (fst Toy.row_state) <> None.
Proof.
  assert (Hr : reachable (fst Toy.row_state)).
  { apply (reach_exec_select (Toy.req_of "SELECT 1; ") Toy.db0 2 (Ret 1) Toy.row_state);
      [| reflexivity].
    apply (reach_sql Req_new Toy.db0 "SELECT 1; " (Toy.req_of "SELECT 1; ", Toy.db0));
      [apply reach_new | reflexivity]. }
  assert (Hc : m_cols (fst Toy.row_state) <> 0) by discriminate.
  split; [exact Hr |]. split; [exact Hc |].
  exact (reachable_count_has_handle (fst Toy.row_state) Hr Hc).
Defined.

Lemma exec_select_row_pending_witness :
  0 < m_cols (fst Toy.row_state) /\
  exec_select 5 Toy.row_state =
    Some (Throw (UsageError "exec_select() called with current row data"), Toy.row_state).
Proof.
  split; [reflexivity |].
  apply (exec_select_row_pending 5 (fst Toy.row_state) (snd Toy.row_state)). reflexivity.
Defined.

Lemma exec_row_pending_witness :
  0 < m_cols (fst Toy.row_state) /\
  exec 5 Toy.row_state =
    Some (Throw (UsageError "exec() called with current row data"), Toy.row_state).
Proof.
  split; [reflexivity |].
  apply (exec_row_pending 5 (fst Toy.row_state) (snd Toy.row_state)). reflexivity.
Defined.

(** C7: the claim fails on the source at a column that holds SQL NULL.  The
    script [SELECT NULL;] has produced its row: a compiled handle is held, the
    column count is 1 and index 0 is in range, and the engine's text pointer
    is null.  [col_text] and the overload with an out-parameter hand that
    pointer to [std::string]: the call neither throws a usage error nor
    returns a value, its behaviour is undefined.  The accessors beside them
    read the same column: [col_int] returns 0 and [col_blob] an empty range. *)
Theorem col_text_of_null :
  exec_select 2 (Toy.req_of "SELECT NULL;", Toy.db0) = Some (Ret 1, Toy.null_state) /\
  m_stmt (fst Toy.null_state) = Some (0%nat, Toy.KNull) /\
  m_cols (fst Toy.null_state) = 1 /\
  sqlite3_column_text (snd Toy.null_state) (0%nat, Toy.KNull) 0 = None /\
  col_text 0 Toy.null_state =
    (Throw (Undefined "std::string from a null pointer"), Toy.null_state) /\
  col_text_to 0 Toy.null_state =
    (Throw (Undefined "std::string from a null pointer"), Toy.null_state) /\
  col_int 0 Toy.null_state = (Ret 0, Toy.null_state) /\
  col_blob 0 Toy.null_state = (Ret [], Toy.null_state).
Proof. repeat split. Qed.

Lemma col_accessor_guards_witness :
  col_int 0 Toy.row_state = (Ret 1, Toy.row_state) /\
  col_text 0 Toy.row_state = (Ret "1"%string, Toy.row_state) /\
  (exists what, col_text 1 Toy.row_state = (Throw (UsageError what), Toy.row_state)).
Proof.
  destruct col_accessor_guards as (_ & _ & Htext & _ & Hint & _).
  repeat apply conj.
  - apply (proj2 (Hint 0 (fst Toy.row_state) (snd Toy.row_state)) (0%nat, Toy.KSelect 1 1));
      [reflexivity | discriminate | split; [discriminate | reflexivity]].
  - apply (proj2 (Htext 0 (fst Toy.row_state) (snd Toy.row_state)) (0%nat, Toy.KSelect 1 1));
      [reflexivity | discriminate | split; [discriminate | reflexivity]].
  - apply (proj2 (proj1 (Htext 1 (fst Toy.row_state) (snd Toy.row_state)))).
    right. right. intros [_ H]. discriminate H.
Defined.

Lemma Trans_protocol_witness :
  history (mkTrans false) [(CCommit, true); (CBegin, false); (CBegin, true)] /\
  m_active (mkTrans false) = open_txn [(CCommit, true); (CBegin, false); (CBegin, true)].
Proof.
  assert (H : history (mkTrans false) [(CCommit, true); (CBegin, false); (CBegin, true)]).
  { apply (hist_call CCommit 3 (mkTrans true) Toy.db_txn (Ret tt)
                     (mkTrans false, Toy.mkState false 2 [])); [| reflexivity].
    apply (hist_call CBegin 3 (mkTrans true) Toy.db_txn
                     (Throw (UsageError "begin() transaction when already active"))
                     (mkTrans true, Toy.db_txn)); [| reflexivity].
    apply (hist_call CBegin 3 Trans_new Toy.db0 (Ret tt) (mkTrans true, Toy.db_txn));
      [apply hist_new | reflexivity]. }
  split; [exact H |].
  exact (proj2 (proj2 (proj2 Trans_protocol)) (mkTrans false) _ H).
Defined.

(** C9, as the specification states it, fails: another transaction object has
    begun a transaction on the connection; [begin] on a fresh, inactive
    [Trans] sends [BEGIN], the engine refuses it, and the object stays
    inactive although its [BEGIN] was sent and nothing matched it. *)
Lemma begin_engine_error_cex :
  begin 3 (Trans_new, Toy.db0) = Some (Ret tt, (mkTrans true, Toy.db_txn)) /\
  m_active Trans_new = false /\
  begin 3 (Trans_new, Toy.db_txn) =
    Some (Throw (EngineError "SQL logic error"), (mkTrans false, Toy.mkState true 2 [])).
Proof. repeat split. Qed.

(** ** Instances of the further properties *)

Example flaky_rows_have_columns : rows_have_columns (E := Flaky.engine).
Proof.
  intros w [id k] w' H. cbn in H |- *. unfold Flaky.step, Toy.step in H. cbn [fst snd] in H.
  unfold Flaky.column_count. cbn [snd].
  destruct k as [ | | | | cols rows | ];
    [destruct (Toy.in_txn w); discriminate H .. | discriminate H | lia | discriminate].
Qed.

Example toy_tail_in_text : tail_in_text.
Proof.
  intros w text nByte w' h consumed H. cbn in H. unfold Toy.prepare_v2 in H.
  assert (Hts : forall t, 0 <= snd (Toy.take_stmt t) <= size t + 1).
  { unfold size. induction t as [| c t IH]; cbn [Toy.take_stmt].
    - cbn. lia.
    - destruct (Ascii.eqb c ";").
      + cbn [snd String.length]. lia.
      + destruct (Toy.take_stmt t) as [body n]. cbn [snd String.length] in *. lia. }
  specialize (Hts text). destruct (Toy.take_stmt text) as [body n]. cbn [snd] in Hts.
  destruct (String.eqb (Toy.skip_blanks body) EmptyString).
  - injection H as _ _ <-. exact Hts.
  - destruct (Toy.parse (Toy.skip_blanks body)); [| discriminate H].
    injection H as _ _ <-. exact Hts.
Qed.

Lemma next_row_error_blocks_witness :
  exec_select (E := Flaky.engine) 2 (Flaky.req_of "SELECT 1;", Flaky.db0) =
    Some (Ret 1, Flaky.row_state) /\
  next_row Flaky.row_state = (Throw (EngineError "SQL logic error"), Flaky.row_state) /\
  exec_select 3 (fst Flaky.row_state, Flaky.db0) =
    Some (Throw (UsageError "exec_select() called with current row data"),
          (fst Flaky.row_state, Flaky.db0)).
Proof.
  split; [reflexivity |].
  destruct (next_row_error_blocks (E := Flaky.engine)
              (fst Flaky.row_state) (snd Flaky.row_state) (snd Flaky.row_state)
              (0%nat, Toy.KSelect 1 1) SQLITE_ERROR
              eq_refl ltac:(discriminate) eq_refl ltac:(discriminate) ltac:(discriminate))
    as [H1 [H2 _]].
  split; [exact H1 | exact (proj1 (H2 3%nat Flaky.db0))].
Defined.

Lemma exec_select_throws_engine_witness :
  exec_select 3 (Toy.req_of "BEGIN;BEGIN;", Toy.db0) =
    Some (Throw (EngineError "SQL logic error"),
          (mkReq (Some (1%nat, Toy.KBegin)) "BEGIN;BEGIN;" 12 0,
           Toy.mkState true 2 [(1%nat, 0%nat)])) /\
  (exists what, EngineError "SQL logic error" = EngineError what) /\
  m_cols (mkReq (Some (1%nat, Toy.KBegin)) "BEGIN;BEGIN;" 12 0) = 0.
Proof.
  assert (H : exec_select 3 (Toy.req_of "BEGIN;BEGIN;", Toy.db0) =
              Some (Throw (EngineError "SQL logic error"),
                    (mkReq (Some (1%nat, Toy.KBegin)) "BEGIN;BEGIN;" 12 0,
                     Toy.mkState true 2 [(1%nat, 0%nat)]))) by reflexivity.
  destruct (exec_select_throws_engine 3 (Toy.req_of "BEGIN;BEGIN;", Toy.db0) _ _ eq_refl H)
    as [He [Hc _]].
  split; [exact H |]. split; [exact He | exact Hc].
Defined.

Lemma exec_select_failed_statement_witness :
  exec_select 1 (Toy.req_of "SELEKT 1;", Toy.db0) =
    Some (Throw (EngineError "SQL logic error"), (Toy.req_of "SELEKT 1;", Toy.db0)).
Proof.
  apply (proj1 (exec_select_failed_statement 0 (Toy.req_of "SELEKT 1;") Toy.db0 Toy.db0
                  SQLITE_ERROR 0 None eq_refl eq_refl eq_refl)).
  discriminate.
Defined.

Lemma exec_select_returns_witness :
  exec_select (E := Flaky.engine) 3 (Flaky.req_of "BEGIN;SELECT 1,2;", Flaky.db0) =
    Some (Ret 2, (mkReq (E := Flaky.engine) (Some (1%nat, Toy.KSelect 2 1)) "BEGIN;SELECT 1,2;" 17 2,
                  Toy.mkState true 2 [(1%nat, 1%nat)])) /\
  (2 = 0 <-> Some (1%nat, Toy.KSelect 2 1) = @None Toy.handle).
Proof.
  assert (H : exec_select (E := Flaky.engine) 3 (Flaky.req_of "BEGIN;SELECT 1,2;", Flaky.db0) =
              Some (Ret 2, (mkReq (E := Flaky.engine) (Some (1%nat, Toy.KSelect 2 1)) "BEGIN;SELECT 1,2;" 17 2,
                            Toy.mkState true 2 [(1%nat, 1%nat)]))) by reflexivity.
  split; [exact H |].
  exact (proj1 (proj2 (exec_select_returns (E := Flaky.engine) 3
                         (Flaky.req_of "BEGIN;SELECT 1,2;", Flaky.db0) 2 _
                         flaky_rows_have_columns eq_refl H))).
Defined.

Lemma exec_returns_idle_witness :
  exec (E := Flaky.engine) 4 (Flaky.req_of "CREATE TABLE t(a);BEGIN;", Flaky.db0) =
    Some (Ret tt, (mkReq (E := Flaky.engine) None "CREATE TABLE t(a);BEGIN;" 24 0, Toy.mkState true 2 [])) /\
  Idle (E := Flaky.engine) (mkReq (E := Flaky.engine) None "CREATE TABLE t(a);BEGIN;" 24 0).
Proof.
  assert (H : exec (E := Flaky.engine) 4 (Flaky.req_of "CREATE TABLE t(a);BEGIN;", Flaky.db0) =
              Some (Ret tt, (mkReq (E := Flaky.engine) None "CREATE TABLE t(a);BEGIN;" 24 0,
                             Toy.mkState true 2 []))) by reflexivity.
  split; [exact H |].
  exact (proj1 (exec_returns_idle (E := Flaky.engine) 4 _ _ flaky_rows_have_columns H)).
Defined.

Lemma exec_throws_engine_witness :
  exec (E := Flaky.engine) 4 (Flaky.req_of "SELECT 1;BEGIN;", Flaky.db0) =
    Some (Throw (EngineError "SQL logic error"),
          (mkReq (E := Flaky.engine) (Some (0%nat, Toy.KSelect 1 1)) "SELECT 1;BEGIN;" 9 1,
           Toy.mkState false 1 [(0%nat, 1%nat)])) /\
  (exists what, EngineError "SQL logic error" = EngineError what).
Proof.
  assert (H : exec (E := Flaky.engine) 4 (Flaky.req_of "SELECT 1;BEGIN;", Flaky.db0) =
              Some (Throw (EngineError "SQL logic error"),
                    (mkReq (E := Flaky.engine) (Some (0%nat, Toy.KSelect 1 1)) "SELECT 1;BEGIN;" 9 1,
                     Toy.mkState false 1 [(0%nat, 1%nat)]))) by reflexivity.
  split; [exact H |].
  exact (exec_throws_engine (E := Flaky.engine) 4
           (Flaky.req_of "SELECT 1;BEGIN;", Flaky.db0) _ _ flaky_rows_have_columns eq_refl H).
Defined.

Lemma buffer_unchanged_witness :
  m_sql (mkReq (E := Toy.engine) None "CREATE TABLE t(a); VALUES(1),(2);BEGIN; " 40 0) =
  m_sql (Toy.req_of "CREATE TABLE t(a); VALUES(1),(2);BEGIN; ").
Proof.
  apply (proj2 (proj2 (proj2 (buffer_unchanged
           (Toy.req_of "CREATE TABLE t(a); VALUES(1),(2);BEGIN; ", Toy.db0))))
           5%nat (Ret tt)
           (mkReq None "CREATE TABLE t(a); VALUES(1),(2);BEGIN; " 40 0, Toy.mkState true 3 [])).
  reflexivity.
Defined.

Lemma offset_stays_in_buffer_witness :
  reachable (fst Toy.row_state) /\ offset_in_buffer (fst Toy.row_state).
Proof.
  assert (Hr : reachable (fst Toy.row_state)).
  { apply (reach_exec_select (Toy.req_of "SELECT 1; ") Toy.db0 2 (Ret 1) Toy.row_state);
      [| reflexivity].
    apply (reach_sql Req_new Toy.db0 "SELECT 1; " (Toy.req_of "SELECT 1; ", Toy.db0));
      [apply reach_new | reflexivity]. }
  split; [exact Hr |].
  exact (offset_stays_in_buffer (fst Toy.row_state) toy_tail_in_text Hr).
Defined.

Lemma offset_moves_forward_witness :
  m_pos (Toy.req_of "SELECT 1; ") <= m_pos (fst Toy.row_state).
Proof.
  apply (proj1 (offset_moves_forward (Toy.req_of "SELECT 1; ", Toy.db0) toy_tail_in_text
                  ltac:(unfold offset_in_buffer; cbn; lia) ltac:(cbn; lia))
               2%nat (Ret 1) Toy.row_state).
  reflexivity.
Defined.

Lemma exec_at_end_witness :
  exec_select 1 (Req_new, Toy.db0) = Some (Ret 0, (Req_new, Toy.db0)) /\
  exec 2 (Req_new, Toy.db0) = Some (Ret tt, (Req_new, Toy.db0)).
Proof.
  exact (exec_at_end 0 Req_new Toy.db0 eq_refl ltac:(cbn; lia)).
Defined.

Lemma exec_select_terminates_witness :
  exists out, exec_select 11 (Toy.req_of "SELECT 1; ", Toy.db0) = Some out.
Proof.
  exact (exec_select_terminates toy_progresses (Toy.req_of "SELECT 1; ", Toy.db0)
           ltac:(cbn; lia) ltac:(cbn; lia)).
Defined.

Lemma row_is_readable_witness :
  exists h,
    m_stmt (fst Toy.row_state) = Some h /\
    col_int 0 Toy.row_state = (Ret (sqlite3_column_int (snd Toy.row_state) h 0), Toy.row_state).
Proof.
  destruct (row_is_readable 2 (Toy.req_of "SELECT 1; ", Toy.db0) 1 Toy.row_state 0
              eq_refl eq_refl ltac:(lia))
    as [h (Hs & _ & _ & _ & _ & Hint & _)].
  exists h. split; [exact Hs | exact Hint].
Defined.

Lemma columns_gone_after_rows_witness :
  col_int 0 Toy.done_state =
    (Throw (UsageError "column operation called when row not available"), Toy.done_state).
Proof.
  exact (proj1 (proj2 (proj2 (proj2 (proj2 (proj2
           (columns_gone_after_rows (fst Toy.row_state) (snd Toy.row_state)
              (0%nat, Toy.KSelect 1 1) 0 eq_refl ltac:(discriminate) eq_refl))))))).
Defined.

Lemma Trans_dtor_returns_inactive_witness :
  m_active (fst (mkTrans false, Toy.mkState false 2 [])) = false.
Proof.
  exact (proj1 (Trans_dtor_returns_inactive 3 (mkTrans true, Toy.db_txn)
                  (mkTrans false, Toy.mkState false 2 []) eq_refl)).
Defined.

Lemma history_alternates_witness :
  history (mkTrans false) [(CCommit, true); (CCommit, false); (CBegin, true)] /\
  alternates [(CCommit, true); (CCommit, false); (CBegin, true)] = true.
Proof.
  assert (H : history (mkTrans false) [(CCommit, true); (CCommit, false); (CBegin, true)]).
  { apply (hist_call CCommit 3 (mkTrans true) Toy.db_txn (Ret tt)
                     (mkTrans false, Toy.mkState false 2 [])); [| reflexivity].
    apply (hist_call CCommit 3 (mkTrans true) Toy.db0
                     (Throw (EngineError "SQL logic error"))
                     (mkTrans true, Toy.mkState false 1 [])); [| reflexivity].
    apply (hist_call CBegin 3 Trans_new Toy.db0 (Ret tt) (mkTrans true, Toy.db_txn));
      [apply hist_new | reflexivity]. }
  split; [exact H | exact (history_alternates _ _ H)].
Defined.

Lemma req_life_balanced_witness :
  req_life (E := Toy.engine)
    (@mkReq (recording Toy.engine) (Some (0%nat, Toy.KSelect 1 1)) "SELECT 1; " 9 1,
     (Toy.mkState false 1 [(0%nat, 1%nat)], [Acquired (0%nat, Toy.KSelect 1 1)])) /\
  balanced (Some (0%nat, Toy.KSelect 1 1)) [Acquired (0%nat, Toy.KSelect 1 1)] /\
  balanced None [Acquired (0%nat, Toy.KSelect 1 1); Released (0%nat, Toy.KSelect 1 1)].
Proof.
  assert (Hl : req_life (E := Toy.engine)
                 (@mkReq (recording Toy.engine) (Some (0%nat, Toy.KSelect 1 1)) "SELECT 1; " 9 1,
                  (Toy.mkState false 1 [(0%nat, 1%nat)],
                   [Acquired (0%nat, Toy.KSelect 1 1)]))).
  { apply (life_exec_select (E := Toy.engine)
             (snd (sql_append "SELECT 1; " (@Req_new (recording Toy.engine), (Toy.db0, []))))
             2 (Ret 1)); [| reflexivity].
    apply life_sql. apply life_new. }
  split; [exact Hl | exact (req_life_balanced _ Hl)].
Defined.

Lemma Trans_calls_release_witness :
  call (E := recording Toy.engine) CBegin 3 (Trans_new, (Toy.db0, [])) =
    Some (Ret tt, (mkTrans true,
                   (Toy.db_txn, [Acquired (0%nat, Toy.KBegin); Released (0%nat, Toy.KBegin)]))) /\
  balanced None [Acquired (0%nat, Toy.KBegin); Released (0%nat, Toy.KBegin)].
Proof.
  assert (H : call (E := recording Toy.engine) CBegin 3 (Trans_new, (Toy.db0, [])) =
              Some (Ret tt, (mkTrans true,
                             (Toy.db_txn,
                              [Acquired (0%nat, Toy.KBegin); Released (0%nat, Toy.KBegin)]))))
    by reflexivity.
  split; [exact H |].
  exact (proj1 (Trans_calls_release (E := Toy.engine) 3 CBegin (Trans_new, (Toy.db0, []))
                  _ (Ret tt) bal_nil) H).
Defined.

Lemma conn_life_balanced_witness :
  conn_life (E := Toy.engine) (O := ToyOpen.opener)
    (@mkConn (recording_opener ToyOpen.opener) (Some 1%nat),
     (2%nat, [Acquired 0%nat; Released 0%nat; Acquired 1%nat])) /\
  balanced (Some 1%nat) [Acquired 0%nat; Released 0%nat; Acquired 1%nat] /\
  balanced None [Acquired 0%nat; Released 0%nat; Acquired 1%nat; Released 1%nat].
Proof.
  assert (Hl : conn_life (E := Toy.engine) (O := ToyOpen.opener)
                 (@mkConn (recording_opener ToyOpen.opener) (Some 1%nat),
                  (2%nat, [Acquired 0%nat; Released 0%nat; Acquired 1%nat]))).
  { apply (conn_reopen (E := Toy.engine) (O := ToyOpen.opener)
             (@mkConn (recording_opener ToyOpen.opener) None,
              (1%nat, [Acquired 0%nat; Released 0%nat])) "file:b?mode=rwc").
    apply (conn_reopen (E := Toy.engine) (O := ToyOpen.opener)
             (@mkConn (recording_opener ToyOpen.opener) (Some 0%nat),
              (1%nat, [Acquired 0%nat])) "http://example.org/db").
    apply (conn_new (E := Toy.engine) (O := ToyOpen.opener) default_uri 0%nat).
    reflexivity. }
  split; [exact Hl | exact (conn_life_balanced _ Hl)].
Defined.

Lemma reopen_outcome_witness :
  reopen (E := Toy.engine) (O := ToyOpen.opener) "http://example.org/db"
    (@mkConn ToyOpen.opener (Some 0%nat), 1%nat) =
    (Throw (EngineError "unknown error"), (@mkConn ToyOpen.opener None, 1%nat)).
Proof.
  exact (proj1 (reopen_outcome (E := Toy.engine) (O := ToyOpen.opener)
                  "http://example.org/db" (@mkConn ToyOpen.opener (Some 0%nat)) 1%nat 1%nat 14 None eq_refl)).
Defined.

End Runs.
